(** * Local Text Improver: a shallow embedding of the suggestion engine

    The development follows the TypeScript sources of the browser extension:
    the content script (ping icons and the improvement panel) and the
    background script (the Ollama service, its response parser, the model
    configuration and the error messages).

    JavaScript strings are sequences of UTF-16 code units; [length],
    [substring], [split], [trim] and the regular expressions of the sources
    all work on code units, so a string is modelled as a list of code units,
    each one a binary natural number. *)

From Stdlib Require Import List NArith ZArith QArith Lia Bool String Ascii.
From Stdlib Require Import DecimalString.
Import ListNotations.
Close Scope Q_scope.

Set Implicit Arguments.
Set Warnings "-register-all,-abstract-large-number".

(* ================================================================== *)
(** * Part I: definitions                                              *)
(* ================================================================== *)

(** ** JavaScript strings *)

Module JsString.

Definition ustring := list N.

(** [u "abc"] is the JavaScript string with the same (Latin-1) characters. *)
Definition u (s : string) : ustring :=
  map N_of_ascii (list_ascii_of_string s).

Fixpoint eqb (a b : ustring) : bool :=
  match a, b with
  | [], [] => true
  | x :: a', y :: b' => N.eqb x y && eqb a' b'
  | _, _ => false
  end.

(** [a.startsWith(p)] *)
Fixpoint startsWith (p a : ustring) : bool :=
  match p, a with
  | [], _ => true
  | x :: p', y :: a' => N.eqb x y && startsWith p' a'
  | _ :: _, [] => false
  end.

(** [a.includes(p)]: [p] occurs at some position of [a]. *)
Fixpoint includes (a p : ustring) : bool :=
  startsWith p a ||
  match a with
  | [] => false
  | _ :: a' => includes a' p
  end.

(** ECMAScript WhiteSpace and LineTerminator code points, the characters
    removed by [String.prototype.trim] and matched by [\s]. *)
Definition isWhiteSpace (c : N) : bool :=
  (((9 <=? c) && (c <=? 13)) || (c =? 32) || (c =? 160) || (c =? 5760)
   || ((8192 <=? c) && (c <=? 8202)) || (c =? 8232) || (c =? 8233)
   || (c =? 8239) || (c =? 8287) || (c =? 12288) || (c =? 65279))%N.

Fixpoint trimStart (s : ustring) : ustring :=
  match s with
  | [] => []
  | c :: s' => if isWhiteSpace c then trimStart s' else s
  end.

Definition trimEnd (s : ustring) : ustring := rev (trimStart (rev s)).

Definition trim (s : ustring) : ustring := trimEnd (trimStart s).

(** [s.split(sep)] for a separator of one code unit: the fields between
    the occurrences of [sep]; never the empty array. *)
Fixpoint split (sep : N) (s : ustring) : list ustring :=
  match s with
  | [] => [[]]
  | c :: s' =>
      if N.eqb c sep then [] :: split sep s'
      else match split sep s' with
           | w :: ws => (c :: w) :: ws
           | [] => [[c]]
           end
  end.

(** [s.substring(a, b)] with both indices already non-negative integers:
    indices are clamped to the length and swapped when [a > b]. *)
Definition substring (s : ustring) (a b : nat) : ustring :=
  let a' := Nat.min a (List.length s) in
  let b' := Nat.min b (List.length s) in
  let lo := Nat.min a' b' in
  let hi := Nat.max a' b' in
  firstn (hi - lo) (skipn lo s).

(** [s.substring(a)] *)
Definition substringFrom (s : ustring) (a : nat) : ustring :=
  substring s a (List.length s).

Definition space : N := 32.
Definition newline : N := 10.
Definition dquote : N := 34.
Definition squote : N := 39.

(** The character class of the regular expressions in the sources that
    holds the double and the single quote. *)
Definition isQuote (c : N) : bool := N.eqb c dquote || N.eqb c squote.

(** An ASCII-only lower-casing, the restriction of
    [String.prototype.toLowerCase] to code units below 128. *)
Definition asciiLower (s : ustring) : ustring :=
  map (fun c => if (65 <=? c)%N && (c <=? 90)%N then (c + 32)%N else c) s.

End JsString.

(** ** The improvement panel of the content script *)

Module Panel.
Import JsString.

Definition shortTextThreshold : nat := 20.

(** [text.split(' ').length <= this.shortTextThreshold], the [isShort] flag
    that [improveText] puts in the message to the background script. *)
Definition isShort (text : ustring) : bool :=
  (List.length (split space text) <=? shortTextThreshold)%nat.

(** [suggestion.replace(/^Q|Q$/g, '')], where Q is the class of the two
    quote characters: the global replace first tries the alternative
    anchored at index 0, then resumes after it and can only match the
    alternative anchored at the end. *)
Definition stripLeadingQuote (s : ustring) : ustring :=
  match s with
  | c :: s' => if isQuote c then s' else s
  | [] => []
  end.

Definition stripTrailingQuote (s : ustring) : ustring :=
  match rev s with
  | c :: r => if isQuote c then rev r else s
  | [] => []
  end.

Definition cleanSuggestion (suggestion : ustring) : ustring :=
  stripTrailingQuote (stripLeadingQuote suggestion).



Definition spanOpen : ustring :=
  u "<span class=" ++ [dquote] ++ u "lre__highlight-change" ++ [dquote] ++ u ">".
Definition spanClose : ustring := u "</span>".

(** What [highlightChanges] does with one word of the improved text. *)
Inductive mark : Type :=
| Plain (w : ustring)
| Changed (w : ustring).


Definition isChanged (m : mark) : bool :=
  match m with Plain _ => false | Changed _ => true end.

(** The text appended to [highlighted] for one word. *)
Definition renderMark (m : mark) : ustring :=
  match m with
  | Plain w => w ++ [space]
  | Changed w => spanOpen ++ w ++ spanClose ++ [space]
  end.

(** The text content of markup that consists of text and tags only, with
    no character references: what stands between the tags. *)
Fixpoint textOutsideTags (html : ustring) (inTag : bool) : ustring :=
  match html with
  | [] => []
  | c :: html' =>
      if inTag then textOutsideTags html' (negb (N.eqb c 62))
      else if N.eqb c 60 then textOutsideTags html' true
      else c :: textOutsideTags html' false
  end.

Definition plainTextOf (html : ustring) : ustring := textOutsideTags html false.

Section Highlight.

(** [String.prototype.toLowerCase] is a primitive of the platform; the
    highlighter only compares its results. *)
Variable toLowerCase : ustring -> ustring.

(** The two [while] loops of [highlightChanges]: the cursor [i] is the
    head of [originalWords], the cursor [j] the head of [improvedWords];
    every iteration advances [j], so the recursion is on [improvedWords].
    Once [originalWords] is exhausted the first loop ends and the second
    one wraps every remaining word. *)
Fixpoint highlightLoop (originalWords improvedWords : list ustring)
    (highlighted : ustring) : ustring :=
  match improvedWords with
  | [] => highlighted
  | wj :: improvedRest =>
      match originalWords with
      | [] =>
          highlightLoop [] improvedRest
            (highlighted ++ spanOpen ++ wj ++ spanClose ++ [space])
      | wi :: originalRest =>
          if eqb (toLowerCase wi) (toLowerCase wj)
          then highlightLoop originalRest improvedRest
                 (highlighted ++ wj ++ [space])
          else highlightLoop originalWords improvedRest
                 (highlighted ++ spanOpen ++ wj ++ spanClose ++ [space])
      end
  end.

Definition highlightChanges (original improved : ustring) : ustring :=
  trim (highlightLoop (split space original) (split space improved) []).

(** The same walk, recording for every improved word whether it was
    wrapped in the highlight span. *)
Fixpoint highlightMarks (originalWords improvedWords : list ustring)
    : list mark :=
  match improvedWords with
  | [] => []
  | wj :: improvedRest =>
      match originalWords with
      | [] => Changed wj :: highlightMarks [] improvedRest
      | wi :: originalRest =>
          if eqb (toLowerCase wi) (toLowerCase wj)
          then Plain wj :: highlightMarks originalRest improvedRest
          else Changed wj :: highlightMarks originalWords improvedRest
      end
  end.

Definition marksOf (original improved : ustring) : list mark :=
  highlightMarks (split space original) (split space improved).

End Highlight.

End Panel.

(** ** JSON.parse

    The background script relies on the platform's [JSON.parse].  The
    parser below follows the JSON grammar of ECMA-404 as [JSON.parse]
    implements it: the four white-space characters, objects, arrays,
    strings with their escapes, numbers and the three literals, and nothing
    but white space after the value. *)

Module Json.
Import JsString.

(** The decimal numeral a JSON number was written as: the value is
    [(-1)^negative * mantissa * 10^exponent]. *)
Record number : Type := {
  negative : bool;
  mantissa : N;
  exponent : Z
}.

Inductive value : Type :=
| JNull
| JBool (b : bool)
| JNumber (n : number)
| JString (s : ustring)
| JArray (elements : list value)
| JObject (members : list (ustring * value)).

(** The three outcomes of a parsing function that runs on fuel. *)
Inductive result (A : Type) : Type :=
| Parsed (a : A) (rest : ustring)
| SyntaxError
| OutOfFuel.

Arguments SyntaxError {A}.
Arguments OutOfFuel {A}.

Definition isJsonSpace (c : N) : bool :=
  (N.eqb c 32 || N.eqb c 9 || N.eqb c 10 || N.eqb c 13)%N.

Fixpoint skipWs (s : ustring) : ustring :=
  match s with
  | c :: s' => if isJsonSpace c then skipWs s' else s
  | [] => []
  end.

Definition isDigit (c : N) : bool := ((48 <=? c) && (c <=? 57))%N.

Definition digitValue (c : N) : N := (c - 48)%N.

Definition hexValue (c : N) : option N :=
  if isDigit c then Some (c - 48)%N
  else if ((97 <=? c) && (c <=? 102))%N then Some (c - 87)%N
  else if ((65 <=? c) && (c <=? 70))%N then Some (c - 55)%N
  else None.

Definition hex4 (a b c d : N) : option N :=
  match hexValue a, hexValue b, hexValue c, hexValue d with
  | Some x, Some y, Some z, Some w => Some (((x * 16 + y) * 16 + z) * 16 + w)%N
  | _, _, _, _ => None
  end.

(** The character an escape letter stands for (the [u] escape apart). *)
Definition simpleEscape (c : N) : option N :=
  if N.eqb c 34 then Some 34%N          (* quote *)
  else if N.eqb c 92 then Some 92%N     (* backslash *)
  else if N.eqb c 47 then Some 47%N     (* slash *)
  else if N.eqb c 98 then Some 8%N      (* b *)
  else if N.eqb c 102 then Some 12%N    (* f *)
  else if N.eqb c 110 then Some 10%N    (* n *)
  else if N.eqb c 114 then Some 13%N    (* r *)
  else if N.eqb c 116 then Some 9%N     (* t *)
  else None.

(** The characters of a string after its opening quote, up to and
    including the closing quote. *)
Fixpoint parseChars (s : ustring) : option (ustring * ustring) :=
  match s with
  | [] => None
  | c :: r =>
      if N.eqb c 34 then Some ([], r)
      else if N.eqb c 92 then
        match r with
        | [] => None
        | e :: r1 =>
            if N.eqb e 117 then
              match r1 with
              | h1 :: h2 :: h3 :: h4 :: r2 =>
                  match hex4 h1 h2 h3 h4 with
                  | Some code =>
                      match parseChars r2 with
                      | Some (str, rest) => Some (code :: str, rest)
                      | None => None
                      end
                  | None => None
                  end
              | _ => None
              end
            else
              match simpleEscape e with
              | Some x =>
                  match parseChars r1 with
                  | Some (str, rest) => Some (x :: str, rest)
                  | None => None
                  end
              | None => None
              end
        end
      else if (c <? 32)%N then None
      else
        match parseChars r with
        | Some (str, rest) => Some (c :: str, rest)
        | None => None
        end
  end.

(** The longest run of decimal digits at the head of [s], read as a
    numeral that continues [acc]; also the number of digits read. *)
Fixpoint spanDigits (s : ustring) (acc : N) (count : nat) : N * nat * ustring :=
  match s with
  | c :: s' =>
      if isDigit c then spanDigits s' (acc * 10 + digitValue c)%N (S count)
      else (acc, count, s)
  | [] => (acc, count, [])
  end.

(** The integer part: a single [0], or a non-zero digit and more digits. *)
Definition parseInt (s : ustring) : option (N * ustring) :=
  match s with
  | c :: s' =>
      if N.eqb c 48 then Some (0%N, s')
      else if isDigit c then
        let '(n, _, rest) := spanDigits s' (digitValue c) 1 in Some (n, rest)
      else None
  | [] => None
  end.

(** The optional fraction: a dot and at least one digit. *)
Definition parseFrac (int : N) (s : ustring) : option (N * nat * ustring) :=
  match s with
  | c :: s' =>
      if N.eqb c 46 then
        match spanDigits s' int 0 with
        | (_, O, _) => None
        | (n, k, rest) => Some (n, k, rest)
        end
      else Some (int, O, s)
  | [] => Some (int, O, [])
  end.

(** The optional exponent: [e] or [E], an optional sign, at least one
    digit. *)
Definition parseExp (s : ustring) : option (Z * ustring) :=
  match s with
  | c :: s' =>
      if N.eqb c 101 || N.eqb c 69 then
        let '(sign, s2) :=
          match s' with
          | d :: s'' =>
              if N.eqb d 45 then ((-1)%Z, s'')
              else if N.eqb d 43 then (1%Z, s'')
              else (1%Z, s')
          | [] => (1%Z, [])
          end in
        match spanDigits s2 0 0 with
        | (_, O, _) => None
        | (n, _, rest) => Some ((sign * Z.of_N n)%Z, rest)
        end
      else Some (0%Z, s)
  | [] => Some (0%Z, [])
  end.

Definition parseNumber (s : ustring) : option (number * ustring) :=
  let '(neg, s1) :=
    match s with
    | c :: s' => if N.eqb c 45 then (true, s') else (false, s)
    | [] => (false, [])
    end in
  match parseInt s1 with
  | None => None
  | Some (int, s2) =>
      match parseFrac int s2 with
      | None => None
      | Some (m, k, s3) =>
          match parseExp s3 with
          | None => None
          | Some (e, s4) =>
              Some ({| negative := neg; mantissa := m;
                       exponent := (e - Z.of_nat k)%Z |}, s4)
          end
      end
  end.

(** [expectWord w v s]: the literal [w] at the head of [s]. *)
Definition expectWord (w : ustring) (v : value) (s : ustring) : result value :=
  if startsWith w s then Parsed v (skipn (List.length w) s) else SyntaxError.

Fixpoint parseValue (fuel : nat) (s : ustring) : result value :=
  match fuel with
  | O => OutOfFuel
  | S fuel' =>
      match skipWs s with
      | [] => SyntaxError
      | c :: r =>
          if N.eqb c 123 then               (* open brace *)
            match skipWs r with
            | c' :: r' =>
                if N.eqb c' 125 then Parsed (JObject []) r'
                else
                  match parseMembers fuel' r with
                  | Parsed ms rest => Parsed (JObject ms) rest
                  | SyntaxError => SyntaxError
                  | OutOfFuel => OutOfFuel
                  end
            | [] => SyntaxError
            end
          else if N.eqb c 91 then           (* open bracket *)
            match skipWs r with
            | c' :: r' =>
                if N.eqb c' 93 then Parsed (JArray []) r'
                else
                  match parseElements fuel' r with
                  | Parsed xs rest => Parsed (JArray xs) rest
                  | SyntaxError => SyntaxError
                  | OutOfFuel => OutOfFuel
                  end
            | [] => SyntaxError
            end
          else if N.eqb c 34 then           (* quote *)
            match parseChars r with
            | Some (str, rest) => Parsed (JString str) rest
            | None => SyntaxError
            end
          else if N.eqb c 116 then expectWord (u "true") (JBool true) (c :: r)
          else if N.eqb c 102 then expectWord (u "false") (JBool false) (c :: r)
          else if N.eqb c 110 then expectWord (u "null") JNull (c :: r)
          else
            match parseNumber (c :: r) with
            | Some (n, rest) => Parsed (JNumber n) rest
            | None => SyntaxError
            end
      end
  end

(** The members of an object after its opening brace, up to and
    including the closing brace; at least one member. *)
with parseMembers (fuel : nat) (s : ustring) : result (list (ustring * value)) :=
  match fuel with
  | O => OutOfFuel
  | S fuel' =>
      match skipWs s with
      | c :: r =>
          if N.eqb c 34 then
            match parseChars r with
            | None => SyntaxError
            | Some (key, r1) =>
                match skipWs r1 with
                | c1 :: r2 =>
                    if N.eqb c1 58 then     (* colon *)
                      match parseValue fuel' r2 with
                      | SyntaxError => SyntaxError
                      | OutOfFuel => OutOfFuel
                      | Parsed v r3 =>
                          match skipWs r3 with
                          | c3 :: r4 =>
                              if N.eqb c3 44 then      (* comma *)
                                match parseMembers fuel' r4 with
                                | Parsed ms rest => Parsed ((key, v) :: ms) rest
                                | SyntaxError => SyntaxError
                                | OutOfFuel => OutOfFuel
                                end
                              else if N.eqb c3 125 then Parsed [(key, v)] r4
                              else SyntaxError
                          | [] => SyntaxError
                          end
                      end
                    else SyntaxError
                | [] => SyntaxError
                end
            end
          else SyntaxError
      | [] => SyntaxError
      end
  end

(** The elements of an array after its opening bracket, up to and
    including the closing bracket; at least one element. *)
with parseElements (fuel : nat) (s : ustring) : result (list value) :=
  match fuel with
  | O => OutOfFuel
  | S fuel' =>
      match parseValue fuel' s with
      | SyntaxError => SyntaxError
      | OutOfFuel => OutOfFuel
      | Parsed v r1 =>
          match skipWs r1 with
          | c :: r2 =>
              if N.eqb c 44 then
                match parseElements fuel' r2 with
                | Parsed xs rest => Parsed (v :: xs) rest
                | SyntaxError => SyntaxError
                | OutOfFuel => OutOfFuel
                end
              else if N.eqb c 93 then Parsed [v] r2
              else SyntaxError
          | [] => SyntaxError
          end
      end
  end.

(** Every call of the three functions above starts on a strictly shorter
    text or first consumes a character, so this much fuel is never used
    up (see [parseDocument_has_fuel]). *)
Definition fuelFor (s : ustring) : nat := 2 * List.length s + 2.

Definition parseDocument (s : ustring) : result value :=
  match parseValue (fuelFor s) s with
  | Parsed v rest =>
      match skipWs rest with
      | [] => Parsed v []
      | _ :: _ => SyntaxError
      end
  | SyntaxError => SyntaxError
  | OutOfFuel => OutOfFuel
  end.

(** [JSON.parse(text)]: [None] is the [SyntaxError] it throws. *)
Definition parse (text : ustring) : option value :=
  match parseDocument text with
  | Parsed v _ => Some v
  | _ => None
  end.

(** [v.key] for a key that no prototype defines (the field names of the
    response contract): the last member with that key of an object,
    [undefined] ([None]) on any other value.  Reading a property of
    [null] throws and is not covered here. *)
Fixpoint lookup (key : ustring) (ms : list (ustring * value)) : option value :=
  match ms with
  | [] => None
  | (k, v) :: ms' =>
      match lookup key ms' with
      | Some v' => Some v'
      | None => if eqb k key then Some v else None
      end
  end.

Definition getField (v : value) (key : ustring) : option value :=
  match v with
  | JObject ms => lookup key ms
  | _ => None
  end.

(** Whether the double nearest to the numeral is zero: the numeral is
    zero, or it is at most [2^-1075], half the smallest subnormal, which
    rounds to zero. *)
Definition roundsToZero (n : number) : bool :=
  (mantissa n =? 0)%N ||
  ((exponent n <? 0)%Z &&
   (Z.of_N (mantissa n) * 2 ^ 1075 <=? 10 ^ (- exponent n))%Z).

(** ToBoolean on a value that may be [undefined]. *)
Definition truthy (v : option value) : bool :=
  match v with
  | None => false
  | Some JNull => false
  | Some (JBool b) => b
  | Some (JNumber n) => negb (roundsToZero n)
  | Some (JString s) => match s with [] => false | _ :: _ => true end
  | Some (JArray _) => true
  | Some (JObject _) => true
  end.

(** Writes a text with the single quotes of the source literal turned
    into double quotes, for JSON examples. *)
Definition jq (s : string) : ustring :=
  map (fun c => if N.eqb c squote then dquote else c) (u s).

(** The characters a JSON string holds as they are: no quote, no
    backslash, no control character. *)
Definition isPlainChar (c : N) : bool :=
  negb (N.eqb c 34) && negb (N.eqb c 92) && negb (c <? 32)%N.

(** The object of the response contract, written on one line with the
    two texts put between the quotes as they are. *)
Definition contractJson (X Y : ustring) : ustring :=
  jq "{'improved_text':'" ++ X ++ jq "','purpose':'" ++ Y ++ jq "','isSuccess':true}".

(** One character of a string as a JSON text writes it: the character
    itself, a backslash and a letter, or a backslash, the letter u and
    four hexadecimal digits. *)
Inductive Written : Type :=
| Literal (c : N)
| Short (letter : N)
| Unicode (h1 h2 h3 h4 : N).

(** The character that a written form stands for; [None] when the
    grammar does not allow the form. *)
Definition writtenChar (w : Written) : option N :=
  match w with
  | Literal c => if isPlainChar c then Some c else None
  | Short letter => if N.eqb letter 117 then None else simpleEscape letter
  | Unicode h1 h2 h3 h4 => hex4 h1 h2 h3 h4
  end.

Definition writtenText (w : Written) : ustring :=
  match w with
  | Literal c => [c]
  | Short letter => [92%N; letter]
  | Unicode h1 h2 h3 h4 => [92%N; 117%N; h1; h2; h3; h4]
  end.

(** The string that a sequence of written forms stands for. *)
Fixpoint readWritten (ws : list Written) : option ustring :=
  match ws with
  | [] => Some []
  | w :: ws' =>
      match writtenChar w, readWritten ws' with
      | Some c, Some s => Some (c :: s)
      | _, _ => None
      end
  end.

(** The text between the quotes. *)
Definition spell (ws : list Written) : ustring :=
  List.concat (map writtenText ws).

Definition hexDigit (n : N) : N := if (n <? 10)%N then (48 + n)%N else (87 + n)%N.

(** A way to write any character: quote, backslash and the control
    characters that have a letter are written with it, the other
    control characters with four digits, every other character as it
    is. *)
Definition escapeChar (c : N) : Written :=
  if N.eqb c 34 then Short 34
  else if N.eqb c 92 then Short 92
  else if N.eqb c 8 then Short 98
  else if N.eqb c 12 then Short 102
  else if N.eqb c 10 then Short 110
  else if N.eqb c 13 then Short 114
  else if N.eqb c 9 then Short 116
  else if (c <? 32)%N then Unicode 48 48 (hexDigit (c / 16)) (hexDigit (c mod 16))
  else Literal c.

Definition escapeString (s : ustring) : ustring := spell (map escapeChar s).

End Json.

(** ** Exceptions *)

Module Js.
Import JsString.

(** Errors that the platform raises by itself; their message texts are
    chosen by the engine. *)
Inductive engineFault : Type :=
| JsonSyntax (text : ustring)   (* JSON.parse on a malformed text *)
| NotAFunction                  (* calling a property that is undefined *)
| ReadOfNull.                   (* reading a property of null *)

(** A thrown [Error] object. *)
Inductive thrown : Type :=
| Fault (f : engineFault)
| ErrorObject (message : ustring).

Inductive outcome (A : Type) : Type :=
| Ok (a : A)
| Throw (e : thrown).

Arguments Throw {A} e.

Definition bind {A B : Type} (m : outcome A) (k : A -> outcome B) : outcome B :=
  match m with
  | Ok a => k a
  | Throw e => Throw e
  end.

End Js.

(** ** The response parser of the first background script

    [parseOllamaResponse] with its fallbacks, as the earlier background
    script has it. *)

Module LayeredParser.
Import JsString Json Js.

Record ParsedResponse : Type := {
  improved_text : ustring;
  purpose : ustring
}.

Definition defaultPurpose : ustring := u "Text improvements made".

(** The suffix of [s] that starts at the first occurrence of [c]. *)
Fixpoint fromFirst (c : N) (s : ustring) : option ustring :=
  match s with
  | [] => None
  | x :: s' => if N.eqb x c then Some s else fromFirst c s'
  end.

(** The prefix of [s] that ends at the last occurrence of [c]. *)
Definition throughLast (c : N) (s : ustring) : option ustring :=
  match fromFirst c (rev s) with
  | Some r => Some (rev r)
  | None => None
  end.

(** [responseText.match(/\{[\s\S]*\}/)]: the match starts at the first
    open brace and, the star being greedy over every character, ends at
    the last close brace after it. *)
Definition matchBraces (responseText : ustring) : option ustring :=
  match fromFirst 123 responseText with
  | Some (open :: after) =>
      match throughLast 125 after with
      | Some body => Some (open :: body)
      | None => None
      end
  | _ => None
  end.

(** Following the words of the specification, for comparison with
    [matchBraces]: the first balanced brace-delimited substring, that is,
    from the first open brace to the close brace that brings the count of
    open braces back to zero. *)
Fixpoint balancedUpTo (depth : nat) (s : ustring) : option ustring :=
  match s with
  | [] => None
  | c :: s' =>
      if N.eqb c 123 then
        match balancedUpTo (S depth) s' with
        | Some body => Some (c :: body)
        | None => None
        end
      else if N.eqb c 125 then
        match depth with
        | O => None
        | 1%nat => Some [c]
        | S depth' =>
            match balancedUpTo depth' s' with
            | Some body => Some (c :: body)
            | None => None
            end
        end
      else
        match balancedUpTo depth s' with
        | Some body => Some (c :: body)
        | None => None
        end
  end.

Definition firstBalancedBraces (responseText : ustring) : option ustring :=
  match fromFirst 123 responseText with
  | Some fromBrace => balancedUpTo 0 fromBrace
  | None => None
  end.

(** The longest run of characters other than quotes at the head of [s]. *)
Fixpoint spanNonQuote (s : ustring) : ustring * ustring :=
  match s with
  | c :: s' =>
      if isQuote c then ([], s)
      else let '(run, rest) := spanNonQuote s' in (c :: run, rest)
  | [] => ([], [])
  end.

(** Group 1 of the first match of a quote, one or more characters other
    than quotes, and a quote.  A match can only start at a quote; the run
    after it has to be the longest one and not empty, and a quote has to
    follow it. *)
Fixpoint quotedMatch (s : ustring) : option ustring :=
  match s with
  | [] => None
  | c :: s' =>
      if isQuote c then
        match spanNonQuote s' with
        | ((_ :: _) as run, _ :: _) => Some run
        | _ => quotedMatch s'
        end
      else quotedMatch s'
  end.

Definition mentionsImprovedText (line : ustring) : bool :=
  includes line (u "improved_text") || includes line (u "improved text")
  || includes line (u "Improved text").

Definition mentionsPurpose (line : ustring) : bool :=
  includes line (u "purpose") || includes line (u "changes")
  || includes line (u "improvements").

Definition isEmpty (s : ustring) : bool :=
  match s with [] => true | _ :: _ => false end.

(** [responseText.split('\n').map(line => line.trim()).filter(line => line)] *)
Definition nonEmptyLines (responseText : ustring) : list ustring :=
  filter (fun line => negb (isEmpty line)) (map trim (split newline responseText)).

(** The [for] loop over the lines. *)
Fixpoint scanLines (lines : list ustring) (improvedText purpose : ustring)
    : ustring * ustring :=
  match lines with
  | [] => (improvedText, purpose)
  | line :: rest =>
      let improvedText' :=
        if mentionsImprovedText line then
          match quotedMatch line with
          | Some text => text
          | None => improvedText
          end
        else improvedText in
      let purpose' :=
        if mentionsPurpose line then
          match quotedMatch line with
          | Some text => text
          | None => purpose
          end
        else purpose in
      scanLines rest improvedText' purpose'
  end.

(** The fallback that extracts the fields from the text. *)
Definition lineScan (responseText : ustring) : ParsedResponse :=
  let lines := nonEmptyLines responseText in
  let '(scanned, purpose) := scanLines lines [] defaultPurpose in
  let improvedText :=
    match scanned, lines with
    | [], first :: _ => first
    | _, _ => scanned
    end in
  {| improved_text := if isEmpty improvedText then responseText else improvedText;
     purpose := purpose |}.

(** [field.trim()] on a truthy value: only a string has the method. *)
Definition trimOf (v : option value) : outcome ustring :=
  match v with
  | Some (JString s) => Ok (trim s)
  | _ => Throw (Fault NotAFunction)
  end.

(** [parsed.key]; reading a property of [null] throws. *)
Definition readField (parsed : value) (key : ustring) : outcome (option value) :=
  match parsed with
  | JNull => Throw (Fault ReadOfNull)
  | _ => Ok (getField parsed key)
  end.

(** The body of the [try] block. *)
Definition tryParse (responseText : ustring) : outcome ParsedResponse :=
  match matchBraces responseText with
  | Some jsonStr =>
      match parse jsonStr with
      | None => Throw (Fault (JsonSyntax jsonStr))
      | Some parsed =>
          bind (readField parsed (u "improved_text")) (fun improved =>
          if truthy improved then
            bind (readField parsed (u "purpose")) (fun purp =>
            if truthy purp then
              bind (trimOf improved) (fun a =>
              bind (trimOf purp) (fun b =>
              Ok {| improved_text := a; purpose := b |}))
            else Ok (lineScan responseText))
          else Ok (lineScan responseText))
      end
  | None => Ok (lineScan responseText)
  end.

(** The whole function: the [catch] block returns the response as is. *)
Definition parseOllamaResponse (responseText : ustring) : ParsedResponse :=
  match tryParse responseText with
  | Ok parsed => parsed
  | Throw _ =>
      {| improved_text := responseText; purpose := defaultPurpose |}
  end.

End LayeredParser.

(** ** The background script: the Ollama service *)

Module Background.
Import JsString Json Js.

Record ModelConfig : Type := {
  name : ustring;
  temperature : Q;
  top_p : Q
}.

Inductive IconPosition : Type := right | left.
Inductive Theme : Type := light | dark.

Record UserSettings : Type := {
  fastModel : ModelConfig;
  qualityModel : ModelConfig;
  autoShowPing : bool;
  pingIconPosition : IconPosition;
  theme : Theme;
  highlightChanges : bool
}.

Record ModelPair : Type := {
  fast : ModelConfig;
  quality : ModelConfig
}.

Record OllamaRequest : Type := {
  model : ustring;
  prompt : ustring;
  stream : bool;
  options_temperature : Q;
  options_top_p : Q
}.

(** What [improveText] returns and what the message handlers send back:
    a field is [None] when it is [undefined]; [isSuccess] is whatever
    value the model wrote. *)
Record ExtensionResponse : Type := {
  result : option ustring;
  purpose : option ustring;
  isSuccess : option value;
  error : option ustring
}.

(** *** The world outside: storage and the model service *)

(** [chrome.storage.sync.get('userSettings')] *)
Inductive StorageReply : Type :=
| StorageFailed
| Stored (userSettings : option UserSettings).

(** [GET /api/tags]: the fetch or the reading of the body fails, the
    status is not ok, or the body arrives with its [models] field mapped
    to the names. *)
Inductive TagsReply : Type :=
| TagsRejected
| TagsNotOk
| TagsBody (models : option (list ustring)).

(** [POST /api/generate] *)
Inductive GenerateReply : Type :=
| FetchRejected (e : thrown)
| NotOk (status : N) (errorText : ustring)
| BodyRejected (e : thrown)
| Body (response : ustring).

(** *** Model configuration *)

Definition getDefaultModelConfig : ModelPair :=
  {| fast := {| name := u "llama3.2:3b"; temperature := (3 # 10)%Q; top_p := (9 # 10)%Q |};
     quality := {| name := u "qwen2.5:7b-instruct"; temperature := (4 # 10)%Q;
                   top_p := (95 # 100)%Q |} |}.

Definition getDefaultUserSettings : UserSettings :=
  {| fastModel := fast getDefaultModelConfig;
     qualityModel := quality getDefaultModelConfig;
     autoShowPing := true;
     pingIconPosition := right;
     theme := light;
     highlightChanges := true |}.

Definition getUserSettings (storage : StorageReply) : UserSettings :=
  match storage with
  | Stored (Some settings) => settings
  | Stored None => getDefaultUserSettings
  | StorageFailed => getDefaultUserSettings
  end.

Definition getAvailableModels (tags : TagsReply) : list ustring :=
  match tags with
  | TagsBody (Some names) => names
  | TagsBody None => []
  | TagsNotOk => []
  | TagsRejected => []
  end.

(** [availableModels.includes(name)] *)
Definition arrayIncludes (names : list ustring) (x : ustring) : bool :=
  existsb (fun n => eqb n x) names.

Definition getDynamicModelConfig (storage : StorageReply) (tags : TagsReply)
    : ModelPair :=
  match getAvailableModels tags with
  | [] => getDefaultModelConfig
  | [singleModel] =>
      {| fast := {| name := singleModel; temperature := (3 # 10)%Q; top_p := (9 # 10)%Q |};
         quality := {| name := singleModel; temperature := (4 # 10)%Q;
                       top_p := (95 # 100)%Q |} |}
  | _ :: _ :: _ =>
      let settings := getUserSettings storage in
      {| fast := fastModel settings; quality := qualityModel settings |}
  end.

(** [getModelConfig] reads the settings and the model list, and
    [getDynamicModelConfig] reads both again: [storage'] and [tags'] are
    the replies to the second reads. *)
Definition getModelConfig (storage : StorageReply) (tags : TagsReply)
    (storage' : StorageReply) (tags' : TagsReply) : ModelPair :=
  let settings := getUserSettings storage in
  let availableModels := getAvailableModels tags in
  let fastModelExists := arrayIncludes availableModels (name (fastModel settings)) in
  let qualityModelExists :=
    arrayIncludes availableModels (name (qualityModel settings)) in
  if fastModelExists && qualityModelExists
  then {| fast := fastModel settings; quality := qualityModel settings |}
  else getDynamicModelConfig storage' tags'.

(** The configuration of one call when storage and service answer the
    second reads as they answered the first. *)
Definition resolveModels (storage : StorageReply) (tags : TagsReply) : ModelPair :=
  getModelConfig storage tags storage tags.

(** The replies to the reads that one call of [getModelConfig] makes. *)
Record Reads : Type := {
  settingsRead : StorageReply;
  tagsRead : TagsReply;
  settingsReread : StorageReply;
  tagsReread : TagsReply
}.

Definition modelsOf (reads : Reads) : ModelPair :=
  getModelConfig (settingsRead reads) (tagsRead reads)
    (settingsReread reads) (tagsReread reads).

Definition stableReads (storage : StorageReply) (tags : TagsReply) : Reads :=
  {| settingsRead := storage; tagsRead := tags;
     settingsReread := storage; tagsReread := tags |}.

(** *** Error messages *)

Definition msgConnect : ustring :=
  u "Unable to connect to Ollama. Please make sure Ollama is running on your computer.".
Definition msgTimeout : ustring :=
  u "The request took too long to complete. Please try again or check if Ollama is running properly.".
Definition msgModelNotFound : ustring :=
  u "The AI model was not found. Please check if the model is installed in Ollama.".
Definition msgServerError : ustring :=
  u "Ollama encountered an internal error. Please try again in a moment.".
Definition msgFormat : ustring :=
  u "The AI response was not in the expected format. Please try again.".
Definition msgModelUnavailable : ustring :=
  u "The selected AI model is not available. Please check your model configuration.".
Definition msgCannotConnect : ustring :=
  u "Cannot connect to Ollama. Please make sure Ollama is installed and running.".
Definition msgUnknown : ustring :=
  u "Something went wrong while improving your text. Please make sure Ollama is running and try again.".

(** The sentences that [getUserFriendlyErrorMessage] can return. *)
Definition friendlyMessages : list ustring :=
  [msgConnect; msgTimeout; msgModelNotFound; msgServerError; msgFormat;
   msgModelUnavailable; msgCannotConnect; msgUnknown].

(** [getUserFriendlyErrorMessage], from the error string on. *)
Definition friendlyMessageOf (errorString : ustring) : ustring :=
  if includes errorString (u "Failed to fetch")
     || includes errorString (u "NetworkError") then msgConnect
  else if includes errorString (u "timeout")
          || includes errorString (u "Timeout") then msgTimeout
  else if includes errorString (u "404")
          || includes errorString (u "Not Found") then msgModelNotFound
  else if includes errorString (u "500")
          || includes errorString (u "Internal Server Error") then msgServerError
  else if includes errorString (u "JSON")
          || includes errorString (u "parse") then msgFormat
  else if includes errorString (u "model")
          && includes errorString (u "not found") then msgModelUnavailable
  else if includes errorString (u "connection")
          || includes errorString (u "ECONNREFUSED") then msgCannotConnect
  else msgUnknown.

(** [String(n)] for a status code. *)
Definition decimal (n : N) : ustring := u (NilZero.string_of_uint (N.to_uint n)).

Section Service.

(** The message text the engine gives to the errors it raises. *)
Variable engineMessage : engineFault -> ustring.

(** The fixed text of the prompt template before and after the
    interpolated user text. *)
Variables promptHead promptTail : ustring.

(** [error instanceof Error ? error.message : String(error)]; everything
    thrown here is an [Error]. *)
Definition errorString (e : thrown) : ustring :=
  match e with
  | Fault f => engineMessage f
  | ErrorObject message => message
  end.

Definition getUserFriendlyErrorMessage (e : thrown) : ustring :=
  friendlyMessageOf (errorString e).

Definition createPrompt (text : ustring) : ustring :=
  promptHead ++ text ++ promptTail.

(** [v?.trim()] *)
Definition optionalTrim (v : option value) : outcome (option ustring) :=
  match v with
  | None => Ok None
  | Some JNull => Ok None
  | Some (JString s) => Ok (Some (trim s))
  | Some _ => Throw (Fault NotAFunction)
  end.

(** [parseOllamaResponse] of the later background script: a strict
    [JSON.parse] and nothing else. *)
Definition parseOllamaResponse (responseText : ustring) : outcome ExtensionResponse :=
  match parse responseText with
  | None => Throw (Fault (JsonSyntax responseText))
  | Some JNull => Throw (Fault ReadOfNull)
  | Some parsed =>
      bind (optionalTrim (getField parsed (u "improved_text"))) (fun improved =>
      bind (optionalTrim (getField parsed (u "purpose"))) (fun purp =>
      bind (optionalTrim (getField parsed (u "error"))) (fun err =>
      Ok {| result := improved;
            purpose := purp;
            isSuccess := getField parsed (u "isSuccess");
            error := err |})))
  end.

Definition selectModel (models : ModelPair) (isShort : bool) : ModelConfig :=
  if isShort then fast models else quality models.

Definition buildRequest (selectedModel : ModelConfig) (promptText : ustring)
    : OllamaRequest :=
  {| model := name selectedModel;
     prompt := promptText;
     stream := false;
     options_temperature := temperature selectedModel;
     options_top_p := top_p selectedModel |}.

(** The [try] block of [improveText], from the reply of the service on. *)
Definition improveTextBody (reply : GenerateReply) : outcome ExtensionResponse :=
  match reply with
  | FetchRejected e => Throw e
  | NotOk status errorText =>
      Throw (ErrorObject
               (u "Ollama API error: " ++ decimal status ++ u " - " ++ errorText))
  | BodyRejected e => Throw e
  | Body response => parseOllamaResponse (trim response)
  end.

(** [improveText(text, isShort)]: the configuration is resolved anew,
    then the request is sent; the result is the request and what the
    call returns or throws once the service has replied. *)
Definition improveText (reads : Reads) (text : ustring) (isShort : bool)
    (reply : GenerateReply) : OllamaRequest * outcome ExtensionResponse :=
  let models := modelsOf reads in
  let selectedModel := selectModel models isShort in
  let request := buildRequest selectedModel (createPrompt text) in
  (request,
   match improveTextBody reply with
   | Ok r => Ok r
   | Throw e => Throw (ErrorObject (getUserFriendlyErrorMessage e))
   end).

(** [replaceTextWithFormating(text, element)], from the reply on: the
    response text is passed on whole, and the [catch] block returns the
    message of the error. *)
Definition replaceTextWithFormating (reply : GenerateReply) : ExtensionResponse :=
  let attempt :=
    match reply with
    | FetchRejected e => Throw e
    | NotOk status errorText =>
        Throw (ErrorObject
                 (u "Ollama API error: " ++ decimal status ++ u " - " ++ errorText))
    | BodyRejected e => Throw e
    | Body response => Ok (trim response)
    end in
  match attempt with
  | Ok responseText =>
      {| result := Some responseText;
         purpose := Some (u "replace_with_formatting");
         isSuccess := Some (JBool true);
         error := Some [] |}
  | Throw e =>
      {| result := Some [];
         purpose := Some [];
         isSuccess := Some (JBool false);
         error := Some (errorString e) |}
  end.

(** [handleImproveText]: the response sent to the content script. *)
Definition handleImproveText (reads : Reads) (text : ustring)
    (isShort : bool) (reply : GenerateReply) : ExtensionResponse :=
  match snd (improveText reads text isShort reply) with
  | Ok r => r
  | Throw e =>
      {| result := None; purpose := None;
         isSuccess := Some (JBool false);
         error := Some (errorString e) |}
  end.

(** [handleMakeEditedElement] *)
Definition handleMakeEditedElement (text element : ustring)
    (reply : GenerateReply) : ExtensionResponse :=
  match text, element with
  | _ :: _, _ :: _ => replaceTextWithFormating reply
  | _, _ =>
      {| result := None; purpose := None;
         isSuccess := Some (JBool false);
         error := Some (u "Missing text or element") |}
  end.

End Service.

End Background.

(** ** The content script: ping icons *)

Module PingIcon.
Import JsString.

(** A text field of the page.  A field that does not support selection
    reports [null] offsets.  Assigning [value] is modelled as storing the
    text as it is. *)
Record InputElement : Type := {
  value : ustring;
  selectionStart : option nat;
  selectionEnd : option nat
}.

(** [offset || 0] *)
Definition orZero (offset : option nat) : nat :=
  match offset with
  | Some n => n
  | None => 0
  end.

Definition minSelectionLength : nat := 3.

Definition getInputSelection (inputElement : InputElement) : ustring :=
  substring (value inputElement)
    (orZero (selectionStart inputElement)) (orZero (selectionEnd inputElement)).

(** [window.getSelection()] as the editor handler reads it: absent, or
    its range count, whether its first range lies inside the editor, and
    its text. *)
Inductive WindowSelection : Type :=
| NoSelection
| Selection (rangeCount : nat) (insideEditor : bool) (text : ustring).

Definition getSelectedTextFromProseMirror (selection : WindowSelection) : ustring :=
  match selection with
  | NoSelection => []
  | Selection O _ _ => []
  | Selection (S _) false _ => []
  | Selection (S _) true text => text
  end.

(** The element a ping icon belongs to. *)
Inductive Surface : Type :=
| Field (id : nat) (inputElement : InputElement)
| Editor (id : nat).

(** The custom events dispatched on the document. *)
Inductive CustomEvent : Type :=
| TextImprovementRequest (text : ustring) (inputElement : nat)
| TextImprovementRequestForEditor (text : ustring) (inputElement : nat).

(** [handlePingClick]: the event it dispatches, if any. *)
Definition handlePingClick (id : nat) (inputElement : InputElement)
    : option CustomEvent :=
  let selectedText := getInputSelection inputElement in
  if (List.length selectedText <? minSelectionLength)%nat then None
  else Some (TextImprovementRequest selectedText id).

(** The text [handleEditorPingIconClick] takes as selected;
    [lastSelectionText] is the manager's field of that name. *)
Definition editorSelectedText (surface : Surface) (selection : WindowSelection)
    (lastSelectionText : ustring) : ustring :=
  match surface with
  | Field _ inputElement => getInputSelection inputElement
  | Editor _ =>
      match getSelectedTextFromProseMirror selection with
      | [] => lastSelectionText
      | (_ :: _) as live => live
      end
  end.

Definition surfaceId (surface : Surface) : nat :=
  match surface with
  | Field id _ => id
  | Editor id => id
  end.

(** [handleEditorPingIconClick]: the event it dispatches, if any. *)
Definition handleEditorPingIconClick (surface : Surface)
    (selection : WindowSelection) (lastSelectionText : ustring)
    : option CustomEvent :=
  let selectedText := editorSelectedText surface selection lastSelectionText in
  if (List.length selectedText <? minSelectionLength)%nat then None
  else Some (TextImprovementRequestForEditor selectedText (surfaceId surface)).

End PingIcon.

(** ** The content script: the improvement panel manager *)

Module PanelManager.
Import JsString Json Js Panel PingIcon.

(** The two content scripts of the repository differ in a few statements
    of the panel manager: [ContentTs] is [content.ts], [Reworked] the
    script whose [hidePanel] and [replaceSelection] also clear
    [isProcessing] and whose [showSuggestion] breaks lines after full
    stops. *)
Inductive Script : Type := ContentTs | Reworked.

(** Which of the three blocks of the panel is displayed. *)
Inductive View : Type := LoadingState | SuggestionContent | ErrorState.

Record PanelElement : Type := {
  view : View;
  suggestionHtml : ustring;          (* innerHTML of the suggestion text *)
  errorMessage : option ustring;     (* what showError stored *)
  purposeText : option Json.value    (* the value shown as the purpose *)
}.

(** [chrome.runtime.sendMessage] calls. *)
Inductive RuntimeMessage : Type :=
| ImproveTextMessage (text : ustring) (isShort : bool)
| MakeEditedElementMessage (text : ustring).

(** What happened to an element of the page. *)
Inductive DomEffect : Type :=
| InputEvent
| ChangeEvent
| Focused
| ChildrenReplaced (markdown : ustring).

(** The manager's fields, and the part of the page it acts on. *)
Record Page : Type := {
  panel : option PanelElement;
  currentInputText : ustring;
  currentInputElement : option nat;
  isProcessing : bool;
  proseMirrorEditor : option nat;
  changingProseMirror : option Json.value;
  fields : nat -> InputElement;
  sent : list RuntimeMessage;
  effects : list (nat * DomEffect)
}.

Definition initialPage (fields0 : nat -> InputElement) : Page :=
  {| panel := None; currentInputText := []; currentInputElement := None;
     isProcessing := false; proseMirrorEditor := None;
     changingProseMirror := None; fields := fields0; sent := []; effects := [] |}.

Definition setPanel (p : option PanelElement) (st : Page) : Page :=
  {| panel := p; currentInputText := currentInputText st;
     currentInputElement := currentInputElement st;
     isProcessing := isProcessing st; proseMirrorEditor := proseMirrorEditor st;
     changingProseMirror := changingProseMirror st; fields := fields st;
     sent := sent st; effects := effects st |}.

Definition setCurrent (text : ustring) (element : nat) (st : Page) : Page :=
  {| panel := panel st; currentInputText := text;
     currentInputElement := Some element;
     isProcessing := isProcessing st; proseMirrorEditor := proseMirrorEditor st;
     changingProseMirror := changingProseMirror st; fields := fields st;
     sent := sent st; effects := effects st |}.

Definition setProcessing (b : bool) (st : Page) : Page :=
  {| panel := panel st; currentInputText := currentInputText st;
     currentInputElement := currentInputElement st;
     isProcessing := b; proseMirrorEditor := proseMirrorEditor st;
     changingProseMirror := changingProseMirror st; fields := fields st;
     sent := sent st; effects := effects st |}.

Definition setEditor (e : option nat) (st : Page) : Page :=
  {| panel := panel st; currentInputText := currentInputText st;
     currentInputElement := currentInputElement st;
     isProcessing := isProcessing st; proseMirrorEditor := e;
     changingProseMirror := changingProseMirror st; fields := fields st;
     sent := sent st; effects := effects st |}.

Definition setChanging (m : option Json.value) (st : Page) : Page :=
  {| panel := panel st; currentInputText := currentInputText st;
     currentInputElement := currentInputElement st;
     isProcessing := isProcessing st; proseMirrorEditor := proseMirrorEditor st;
     changingProseMirror := m; fields := fields st;
     sent := sent st; effects := effects st |}.

Definition setField (id : nat) (el : InputElement) (st : Page) : Page :=
  {| panel := panel st; currentInputText := currentInputText st;
     currentInputElement := currentInputElement st;
     isProcessing := isProcessing st; proseMirrorEditor := proseMirrorEditor st;
     changingProseMirror := changingProseMirror st;
     fields := fun i => if Nat.eqb i id then el else fields st i;
     sent := sent st; effects := effects st |}.

Definition send (m : RuntimeMessage) (st : Page) : Page :=
  {| panel := panel st; currentInputText := currentInputText st;
     currentInputElement := currentInputElement st;
     isProcessing := isProcessing st; proseMirrorEditor := proseMirrorEditor st;
     changingProseMirror := changingProseMirror st; fields := fields st;
     sent := sent st ++ [m]; effects := effects st |}.

Definition effect (id : nat) (e : DomEffect) (st : Page) : Page :=
  {| panel := panel st; currentInputText := currentInputText st;
     currentInputElement := currentInputElement st;
     isProcessing := isProcessing st; proseMirrorEditor := proseMirrorEditor st;
     changingProseMirror := changingProseMirror st; fields := fields st;
     sent := sent st; effects := effects st ++ [(id, e)] |}.

(** The panel as [createPanel] builds it: the loading block is the only
    one displayed. *)
Definition createPanel : PanelElement :=
  {| view := LoadingState; suggestionHtml := []; errorMessage := None;
     purposeText := None |}.

(** [text.replace(/\./g, '.<br>')] *)
Fixpoint breakAfterStops (html : ustring) : ustring :=
  match html with
  | [] => []
  | c :: html' =>
      if N.eqb c 46 then c :: u "<br>" ++ breakAfterStops html'
      else c :: breakAfterStops html'
  end.

(** The elements that the ping icon manager treats as fields: an [input]
    of type text or search, which holds a single line, and a
    [textarea]. *)
Inductive FieldKind : Type := SingleLine | MultiLine.

Definition isLineBreak (c : N) : bool := N.eqb c 10 || N.eqb c 13.

(** The value sanitization of an input of type text or search: line
    feeds and carriage returns are stripped. *)
Definition stripNewlines (text : ustring) : ustring :=
  filter (fun c => negb (isLineBreak c)) text.

(** The value of a text area as a script reads it: a carriage return
    and the line feed after it become one line feed, every other
    carriage return becomes a line feed. *)
Fixpoint normalizeNewlines (text : ustring) : ustring :=
  match text with
  | [] => []
  | c :: rest =>
      if N.eqb c 13 then
        10%N :: match rest with
                | d :: rest' =>
                    if N.eqb d 10 then normalizeNewlines rest'
                    else normalizeNewlines rest
                | [] => []
                end
      else c :: normalizeNewlines rest
  end.

(** What [field.value] holds after [field.value = text]. *)
Definition assignedValue (kind : FieldKind) (text : ustring) : ustring :=
  match kind with
  | SingleLine => stripNewlines text
  | MultiLine => normalizeNewlines text
  end.

(** The characters that an assignment to a field of the kind keeps as
    they are. *)
Definition keeps (kind : FieldKind) (c : N) : bool :=
  match kind with
  | SingleLine => negb (isLineBreak c)
  | MultiLine => negb (N.eqb c 13)
  end.

Section Manager.

Variable script : Script.

(** Which kind of field an element is; the manager never changes it. *)
Variable kindOf : nat -> FieldKind.

(** Platform primitives: lower-casing, the text content of an element
    whose [innerHTML] was set to a given text, and the message of the
    errors the engine raises. *)
Variable toLowerCase : ustring -> ustring.
Variable textContent : ustring -> ustring.
Variable engineMessage : engineFault -> ustring.

Definition hidePanel (st : Page) : Page :=
  let st1 := match panel st with
             | Some _ => setPanel None st
             | None => st
             end in
  match script with
  | ContentTs => st1
  | Reworked => setProcessing false st1
  end.

(** [showPanel(inputElement)] for an element that exists. *)
Definition showPanel (st : Page) : Page :=
  setPanel (Some createPanel) (hidePanel st).

Definition showLoadingState (st : Page) : Page :=
  match panel st with
  | None => st
  | Some p =>
      setPanel (Some {| view := LoadingState; suggestionHtml := suggestionHtml p;
                        errorMessage := errorMessage p;
                        purposeText := purposeText p |}) st
  end.

Definition showError (message : option ustring) (st : Page) : Page :=
  match panel st with
  | None => st
  | Some p =>
      setPanel (Some {| view := ErrorState; suggestionHtml := suggestionHtml p;
                        errorMessage := message;
                        purposeText := purposeText p |}) st
  end.

(** The markup [showSuggestion] puts into the suggestion text. *)
Definition suggestionMarkup (currentText suggestion : ustring) : ustring :=
  let cleanSuggestion := cleanSuggestion suggestion in
  let highlightedSuggestion := highlightChanges toLowerCase currentText cleanSuggestion in
  match script with
  | ContentTs => highlightedSuggestion
  | Reworked => breakAfterStops highlightedSuggestion
  end.

(** [showSuggestion(suggestion, purpose)].  [suggestion] is the text, or
    the fault that calling [replace] on a value that is not a string
    raises; [purposeArg] is the value assigned to the purpose line when it
    is truthy.  The result is the page as the call leaves it and the
    exception it ends with, if any: the purpose line is set before
    [replace] is called. *)
Definition showSuggestion (suggestion : outcome ustring)
    (purposeArg : option Json.value) (st : Page) : Page * option thrown :=
  match panel st with
  | None => (st, None)
  | Some p =>
      let shownPurpose :=
        if truthy purposeArg then purposeArg else purposeText p in
      match suggestion with
      | Throw e =>
          (setPanel (Some {| view := view p; suggestionHtml := suggestionHtml p;
                             errorMessage := errorMessage p;
                             purposeText := shownPurpose |}) st,
           Some e)
      | Ok text =>
          (setPanel
             (Some {| view := SuggestionContent;
                      suggestionHtml := suggestionMarkup (currentInputText st) text;
                      errorMessage := errorMessage p;
                      purposeText := shownPurpose |}) st,
           None)
      end
  end.

(** A field of a response used as the receiver of a string method. *)
Definition asReceiver (v : option Json.value) : outcome ustring :=
  match v with
  | Some (JString s) => Ok s
  | Some JNull => Throw (Fault ReadOfNull)
  | None => Throw (Fault ReadOfNull)
  | Some _ => Throw (Fault NotAFunction)
  end.

Definition stringField (s : option ustring) : option Json.value :=
  match s with
  | Some t => Some (JString t)
  | None => None
  end.

(** The reply to [chrome.runtime.sendMessage]. *)
Inductive SendReply : Type :=
| Responded (response : Background.ExtensionResponse)
| SendRejected (e : thrown).

Definition messageOf (e : thrown) : ustring :=
  match e with
  | Fault f => engineMessage f
  | ErrorObject message => message
  end.

(** [improveText(text)] up to its [await]: [true] when a message was
    sent and the call now waits for the reply. *)
Definition improveTextStart (text : ustring) (st : Page) : Page * bool :=
  let st1 := setEditor None st in
  if isProcessing st1 || match panel st1 with None => true | Some _ => false end
  then (st1, false)
  else
    let st2 := showLoadingState (setProcessing true st1) in
    (send (ImproveTextMessage text (isShort text)) st2, true).

(** [improveText(text)] from the reply on: the rest of the [try] block,
    the [catch] block and the [finally] block. *)
Definition improveTextResume (reply : SendReply) (st : Page) : Page :=
  let '(st1, raised) :=
    match reply with
    | SendRejected e => (st, Some e)
    | Responded response =>
        if truthy (Background.isSuccess response) then
          showSuggestion (asReceiver (stringField (Background.result response)))
            (stringField (Background.purpose response)) st
        else (showError (Background.error response) st, None)
    end in
  let st2 :=
    match raised with
    | None => st1
    | Some e => showError (Some (messageOf e)) st1
    end in
  setProcessing false st2.

(** [handleTextImprovementRequest(event)] *)
Definition handleTextImprovementRequest (text : ustring) (inputElement : nat)
    (st : Page) : Page * bool :=
  improveTextStart text (showPanel (setCurrent text inputElement st)).

(** The Retry button of the panel. *)
Definition retryClick (st : Page) : Page * bool :=
  improveTextStart (currentInputText st) st.

(** [improveTextAndHTML(text, inputElement)] up to its [await];
    [isProseMirror] is whether the element carries that class. *)
Definition improveTextAndHTMLStart (text : ustring) (inputElement : nat)
    (isProseMirror : bool) (st : Page) : Page * bool :=
  if isProcessing st || match panel st with None => true | Some _ => false end
  then (st, false)
  else
    let st1 := showLoadingState (setProcessing true st) in
    if isProseMirror then
      (send (MakeEditedElementMessage text) (setEditor (Some inputElement) st1), true)
    else
      (match script with
       | ContentTs => st1
       | Reworked => setProcessing false st1
       end, false).

(** [improveTextAndHTML] from the reply on.  In [content.ts] nothing
    catches an exception and [isProcessing] stays set; the reworked
    script has a [catch] and a [finally] block. *)
Definition improveTextAndHTMLResume (reply : SendReply) (st : Page) : Page :=
  let '(st1, raised) :=
    match reply with
    | SendRejected e => (st, Some e)
    | Responded response =>
        if truthy (Background.isSuccess response) then
          match Background.result response with
          | None => (st, Some (Fault (JsonSyntax (u "undefined"))))
          | Some text =>
              match parse text with
              | None => (st, Some (Fault (JsonSyntax text)))
              | Some JNull => (st, Some (Fault ReadOfNull))
              | Some data =>
                  showSuggestion (asReceiver (getField data (u "improved_text")))
                    (getField data (u "purpose"))
                    (setChanging (getField data (u "markdown_content")) st)
              end
          end
        else (showError (Background.error response) st, None)
    end in
  match script with
  | ContentTs => st1
  | Reworked =>
      setProcessing false
        match raised with
        | None => st1
        | Some _ =>
            showError
              (Some (u "An unexpected error occurred while improving text.")) st1
        end
  end.

(** [handleTextImprovementRequestForEditor(event)] *)
Definition handleTextImprovementRequestForEditor (text : ustring)
    (inputElement : nat) (isProseMirror : bool) (st : Page) : Page * bool :=
  improveTextAndHTMLStart text inputElement isProseMirror
    (showPanel (setCurrent text inputElement st)).

(** [this.panel?.element.querySelector('.lre__suggestion-text')
    ?.textContent || ''] *)
Definition suggestionText (st : Page) : ustring :=
  match panel st with
  | Some p => textContent (suggestionHtml p)
  | None => []
  end.

(** [setSelectionRange(pos, pos)]: offsets beyond the value are clamped. *)
Definition setSelectionRange (pos : nat) (el : InputElement) : InputElement :=
  let p := Nat.min pos (List.length (value el)) in
  {| value := value el; selectionStart := Some p; selectionEnd := Some p |}.

(** The field as the branch of [replaceSelection] for an input element
    leaves it: the assignment to [value] stores what the kind of the
    field lets it hold, and [setSelectionRange] clamps the cursor to
    that value. *)
Definition replacedField (kind : FieldKind) (text : ustring) (el : InputElement)
    : InputElement :=
  setSelectionRange (orZero (selectionStart el) + List.length text)
    {| value := assignedValue kind
                  (substring (value el) 0 (orZero (selectionStart el)) ++ text
                   ++ substringFrom (value el) (orZero (selectionEnd el)));
       selectionStart := selectionStart el;
       selectionEnd := selectionEnd el |}.

(** The branch of [replaceSelection] for an input element. *)
Definition replaceInField (text : ustring) (id : nat) (st : Page) : Page :=
  let el := fields st id in
  let start := orZero (selectionStart el) in
  let end_ := orZero (selectionEnd el) in
  let beforeSelection := substring (value el) 0 start in
  let afterSelection := substringFrom (value el) end_ in
  let el1 := {| value := assignedValue (kindOf id)
                           (beforeSelection ++ text ++ afterSelection);
                selectionStart := selectionStart el;
                selectionEnd := selectionEnd el |} in
  let newCursorPos := start + List.length text in
  let st1 := setField id (setSelectionRange newCursorPos el1) st in
  let st2 := effect id ChangeEvent (effect id InputEvent st1) in
  hidePanel (effect id Focused st2).

(** [replaceSelection()], the Replace button.  The conversion of the
    Markdown fragment and the exchange of the editor's children are
    recorded as one effect on the editor; a pending fragment that is
    truthy but not a string makes the call end in an exception at once. *)
Definition replaceSelection (st : Page) : Page :=
  let text := suggestionText st in
  let finish (st1 : Page) :=
    match script with
    | ContentTs => st1
    | Reworked => setProcessing false st1
    end in
  match proseMirrorEditor st, truthy (changingProseMirror st) with
  | Some editor, true =>
      match changingProseMirror st with
      | Some (JString markdown) =>
          finish (hidePanel (effect editor (ChildrenReplaced markdown) st))
      | _ => st
      end
  | _, _ =>
      match text, currentInputElement st with
      | _ :: _, Some id => finish (replaceInField text id st)
      | _, _ => finish st
      end
  end.

End Manager.

End PanelManager.

(** ** The markup of the suggestion *)

Module Markup.
Import JsString Panel.






End Markup.

(** ** The content script: stacking order of the panel *)

Module Stacking.

(** The computed [z-index] of an element: the keyword [auto] or an
    integer.  Browsers keep the integer within 32 bits, so the additions
    below are exact on JavaScript numbers. *)
Inductive ComputedZIndex : Type :=
| Auto
| Index (z : Z).

(** [parseInt(window.getComputedStyle(current).zIndex)]; [None] is
    [NaN]. *)
Definition parseInt (zIndex : ComputedZIndex) : option Z :=
  match zIndex with
  | Auto => None
  | Index z => Some z
  end.

(** The [while] loop of [getEffectiveZIndex]: [chain] holds the computed
    value of the element and of its ancestors below [document.body],
    innermost first. *)
Fixpoint maxZIndexOf (chain : list ComputedZIndex) (maxZIndex : Z) : Z :=
  match chain with
  | [] => maxZIndex
  | current :: parents =>
      maxZIndexOf parents
        match parseInt current with
        | Some zIndex => if (maxZIndex <? zIndex)%Z then zIndex else maxZIndex
        | None => maxZIndex
        end
  end.

Definition getEffectiveZIndex (chain : list ComputedZIndex) : Z :=
  let maxZIndex := maxZIndexOf chain 0 in
  if (0 <? maxZIndex)%Z then (maxZIndex + 10)%Z else 10000%Z.

(** The [z-index] that [showPanel] gives to the panel. *)
Definition panelZIndex (chain : list ComputedZIndex) : Z :=
  (getEffectiveZIndex chain + 5)%Z.

End Stacking.

(** ** The content script: the registry of ping icons

    The ping icon manager keeps one icon per element in [pingIcons].
    Elements are identified by a number; an icon is identified by the
    element it belongs to. *)

Module Registry.
Import JsString.

(** [array.forEach(f)] on a state that [f] updates. *)
Definition forEach {A S : Type} (f : A -> S -> S) (xs : list A) (s : S) : S :=
  fold_left (fun acc x => f x acc) xs s.

(** What [isInputField] reads of an element. *)
Record ElementKind : Type := {
  tagName : ustring;
  inputType : option ustring
}.

(** The document as one call of the manager finds it: which elements it
    contains, the fields that the selector of text inputs, search inputs
    and text areas finds below an element and in the whole document, the
    rich-text editors it finds, and whether an editor has the container
    that its icon is put into. *)
Record Document : Type := {
  contains : nat -> bool;
  kindOf : nat -> ElementKind;
  inputsUnder : nat -> list nat;
  allInputs : list nat;
  editors : list nat;
  hasContainer : nat -> bool
}.

Section Manager.

Variable toLowerCase : ustring -> ustring.

Definition isInputField (element : ElementKind) : bool :=
  let tag := toLowerCase (tagName element) in
  let type := match inputType element with
              | Some t => toLowerCase t
              | None => []
              end in
  (eqb tag (u "input") && existsb (eqb type) [u "text"; u "search"])
  || eqb tag (u "textarea").

(** [addPingIcon]: the list of icons, each one named by its element. *)
Definition addPingIcon (inputElement : nat) (pingIcons : list nat) : list nat :=
  if existsb (Nat.eqb inputElement) pingIcons then pingIcons
  else pingIcons ++ [inputElement].

(** [addEditorPingIcon]: [createEditorPingIcon] returns [null] for an
    editor without its container. *)
Definition addEditorPingIcon (document : Document) (editor : nat)
    (pingIcons : list nat) : list nat :=
  if existsb (Nat.eqb editor) pingIcons then pingIcons
  else if hasContainer document editor then pingIcons ++ [editor]
  else pingIcons.

(** [checkForInputFields(element)]; the source runs the loop over the
    fields twice. *)
Definition checkForInputFields (document : Document) (element : nat)
    (pingIcons : list nat) : list nat :=
  let icons1 :=
    if isInputField (kindOf document element) then addPingIcon element pingIcons
    else pingIcons in
  let inputs := inputsUnder document element in
  let icons2 := forEach addPingIcon inputs icons1 in
  let icons3 := forEach addPingIcon inputs icons2 in
  forEach (addEditorPingIcon document) (editors document) icons3.

(** [cleanupRemovedInputs(removedElement)]: the icons that stay. *)
Definition cleanupRemovedInputs (document : Document) (removedElement : nat)
    (pingIcons : list nat) : list nat :=
  filter (fun icon =>
            negb (negb (contains document icon) || Nat.eqb icon removedElement))
    pingIcons.

Definition setupPingIcons (document : Document) (pingIcons : list nat) : list nat :=
  forEach addPingIcon (allInputs document) pingIcons.

(** One record of the mutation observer, with the element nodes only. *)
Record MutationRecord : Type := {
  addedNodes : list nat;
  removedNodes : list nat
}.

(** The callback of the mutation observer. *)
Definition observerCallback (document : Document) (mutations : list MutationRecord)
    (pingIcons : list nat) : list nat :=
  forEach (fun mutation icons =>
             forEach (cleanupRemovedInputs document) (removedNodes mutation)
               (forEach (checkForInputFields document) (addedNodes mutation) icons))
    mutations pingIcons.

(** The constructor: the observer is installed and the fields of the
    document get their icons. *)
Definition construct (document : Document) : list nat :=
  setupPingIcons document [].

(** The life of the manager: the document at construction, then the
    callbacks of the observer, each with the document as it is then. *)
Definition observed (document : Document)
    (callbacks : list (Document * list MutationRecord)) : list nat :=
  forEach (fun callback => observerCallback (fst callback) (snd callback))
    callbacks (construct document).

End Manager.

End Registry.

(** ** The content script: when a ping icon is displayed *)

Module IconVisibility.
Import JsString PingIcon PanelManager.





(** [getInputElementSelection(editor)] of the reworked script, for an
    element that is no input field. *)
Definition getInputElementSelection (isContentEditable : bool)
    (selection : WindowSelection) (isCollapsed : bool) : ustring :=
  if isContentEditable then
    match selection with
    | Selection (S _) true text => if isCollapsed then [] else text
    | _ => []
    end
  else [].

(** [updateVisibility] of the icon of an editor: whether the icon is
    displayed afterwards, and the manager's [lastSelectionText].
    [anchorInside] is whether the editor contains the anchor node of the
    selection. *)
Definition editorUpdateVisibility (script : Script)
    (isIconClicked displayed isContentEditable : bool)
    (selection : WindowSelection) (isCollapsed anchorInside : bool)
    (lastSelectionText : ustring) : bool * ustring :=
  match script with
  | ContentTs =>
      match selection with
      | NoSelection => (false, lastSelectionText)
      | Selection rangeCount _ text =>
          if (0 <? rangeCount)%nat && negb isCollapsed
             && (minSelectionLength <=? List.length (trim text))%nat
             && anchorInside
          then (true, text)
          else (false, lastSelectionText)
      end
  | Reworked =>
      if isIconClicked then (displayed, lastSelectionText)
      else
        let selectedText :=
          trim (getInputElementSelection isContentEditable selection isCollapsed) in
        if (minSelectionLength <=? List.length selectedText)%nat
        then (true, selectedText)
        else (false, lastSelectionText)
  end.

End IconVisibility.

(** ** The content script: the events of the panel manager

    [setupEventListeners] and [createPanel] register the handlers; an
    [async] method that has sent its message is resumed when the reply
    arrives, at any later time. *)

Module EventLoop.
Import JsString Json Js Panel PingIcon PanelManager.

(** An [async] method that waits for the reply to its message. *)
Inductive Call : Type :=
| ImproveTextCall
| ImproveTextAndHTMLCall.

Inductive Event : Type :=
| Click (insidePanel : bool)
| Keydown (isEscape : bool)
| TextImprovementRequested (text : ustring) (inputElement : nat)
| TextImprovementRequestedForEditor (text : ustring) (inputElement : nat)
    (isProseMirror : bool)
| CloseClicked
| ReplaceClicked
| CopyClicked
| RetryClicked
| Replied (call : nat) (reply : SendReply).

(** The manager, the calls that wait for a reply, oldest first, and the
    texts written to the clipboard. *)
Record Manager : Type := {
  page : Page;
  waiting : list Call;
  clipboard : list ustring
}.

Definition start (fields0 : nat -> InputElement) : Manager :=
  {| page := initialPage fields0; waiting := []; clipboard := [] |}.

Fixpoint removeNth {A : Type} (n : nat) (l : list A) : list A :=
  match n, l with
  | _, [] => []
  | O, _ :: l' => l'
  | S n', x :: l' => x :: removeNth n' l'
  end.

Section Handlers.

Variable script : Script.
Variable kindOf : nat -> FieldKind.
Variable toLowerCase : ustring -> ustring.
Variable textContent : ustring -> ustring.
Variable engineMessage : engineFault -> ustring.

(** [handleClick(event)]; [insidePanel] is whether the panel contains
    the target of the click. *)
Definition handleClick (insidePanel : bool) (st : Page) : Page :=
  match panel st with
  | Some _ => if insidePanel then st else hidePanel script st
  | None => st
  end.

Definition handleKeydown (isEscape : bool) (st : Page) : Page :=
  if isEscape then hidePanel script st else st.

(** [copySuggestion()]: the text written to the clipboard, if any. *)
Definition copySuggestion (st : Page) : option ustring :=
  match suggestionText textContent st with
  | [] => None
  | (_ :: _) as text => Some text
  end.

Definition resume (call : Call) (reply : SendReply) (st : Page) : Page :=
  match call with
  | ImproveTextCall => improveTextResume script toLowerCase engineMessage reply st
  | ImproveTextAndHTMLCall => improveTextAndHTMLResume script toLowerCase reply st
  end.

Definition withPage (st : Page) (m : Manager) : Manager :=
  {| page := st; waiting := waiting m; clipboard := clipboard m |}.

(** A call of an [async] method: it waits when it has sent a message. *)
Definition called (call : Call) (r : Page * bool) (m : Manager) : Manager :=
  {| page := fst r;
     waiting := if snd r then waiting m ++ [call] else waiting m;
     clipboard := clipboard m |}.

Definition dispatch (e : Event) (m : Manager) : Manager :=
  match e with
  | Click insidePanel => withPage (handleClick insidePanel (page m)) m
  | Keydown isEscape => withPage (handleKeydown isEscape (page m)) m
  | TextImprovementRequested text inputElement =>
      called ImproveTextCall
        (handleTextImprovementRequest script text inputElement (page m)) m
  | TextImprovementRequestedForEditor text inputElement isProseMirror =>
      called ImproveTextAndHTMLCall
        (handleTextImprovementRequestForEditor script text inputElement
           isProseMirror (page m)) m
  | CloseClicked => withPage (hidePanel script (page m)) m
  | ReplaceClicked =>
      withPage (replaceSelection script kindOf textContent (page m)) m
  | CopyClicked =>
      match copySuggestion (page m) with
      | Some text =>
          {| page := page m; waiting := waiting m;
             clipboard := clipboard m ++ [text] |}
      | None => m
      end
  | RetryClicked => called ImproveTextCall (retryClick (page m)) m
  | Replied n reply =>
      match nth_error (waiting m) n with
      | Some call =>
          {| page := resume call reply (page m);
             waiting := removeNth n (waiting m);
             clipboard := clipboard m |}
      | None => m
      end
  end.

Definition run (events : list Event) (m : Manager) : Manager :=
  fold_left (fun acc e => dispatch e acc) events m.

End Handlers.

Definition isReplace (e : Event) : bool :=
  match e with
  | ReplaceClicked => true
  | _ => false
  end.

Definition isEditorCall (call : Call) : bool :=
  match call with
  | ImproveTextAndHTMLCall => true
  | ImproveTextCall => false
  end.

(** The part of the page outside the manager is the same in both pages:
    the fields, and what happened to the elements. *)
Definition sameDocument (st st' : Page) : Prop :=
  fields st' = fields st /\ effects st' = effects st.

(** At most one call waits for a reply, and while one waits the manager
    is processing. *)
Definition singleFlight (m : Manager) : Prop :=
  match waiting m with
  | [] => True
  | [_] => isProcessing (page m) = true
  | _ :: _ :: _ => False
  end.

End EventLoop.

(** ** The first background script: the service around the layered parser *)

Module EarlyBackground.
Import JsString Json Js.

(** What [handleImproveText] of the first background script sends back;
    a field is [None] when the object does not have it. *)
Record ExtensionResponse : Type := {
  success : bool;
  result : option ustring;
  purpose : option ustring;
  error : option ustring
}.

Section Service.

Variable engineMessage : engineFault -> ustring.

Definition errorString (e : thrown) : ustring :=
  match e with
  | Fault f => engineMessage f
  | ErrorObject message => message
  end.

(** [improveText], from the reply of the service on: the [try] block,
    and the [catch] block that wraps the message. *)
Definition improveText (reply : Background.GenerateReply)
    : outcome LayeredParser.ParsedResponse :=
  let attempt :=
    match reply with
    | Background.FetchRejected e => Throw e
    | Background.NotOk status errorText =>
        Throw (ErrorObject
                 (u "Ollama API error: " ++ Background.decimal status
                  ++ u " - " ++ errorText))
    | Background.BodyRejected e => Throw e
    | Background.Body response =>
        Ok (LayeredParser.parseOllamaResponse (trim response))
    end in
  match attempt with
  | Ok parsed => Ok parsed
  | Throw e => Throw (ErrorObject (u "Failed to improve text: " ++ errorString e))
  end.

Definition handleImproveText (reply : Background.GenerateReply)
    : ExtensionResponse :=
  match improveText reply with
  | Ok parsed =>
      {| success := true;
         result := Some (LayeredParser.improved_text parsed);
         purpose := Some (LayeredParser.purpose parsed);
         error := None |}
  | Throw e =>
      {| success := false; result := None; purpose := None;
         error := Some (errorString e) |}
  end.

End Service.

End EarlyBackground.

(** ** Scenarios

    Concrete runs of the panel manager, used as examples: a field that
    holds the text of the first scenario of the specification, selected
    from end to end. *)

Module Scenarios.
Import JsString Json Js PingIcon PanelManager.

(** The runs below do not depend on the text that the engine gives to
    the errors it raises itself; where a run needs an engine, this one,
    whose errors carry no text, stands for it. *)
Definition noMessage : engineFault -> ustring := fun _ => [].

(** Nothing is stored and the service lists both default models. *)
Definition reads0 : Background.Reads :=
  Background.stableReads (Background.Stored None)
    (Background.TagsBody (Some [u "llama3.2:3b"; u "qwen2.5:7b-instruct"])).

(** Every field of the scenarios is a single-line input. *)
Definition inputs : nat -> FieldKind := fun _ => SingleLine.

Definition field0 : InputElement :=
  {| value := u "helo wrld"; selectionStart := Some 0%nat; selectionEnd := Some 9%nat |}.

Definition page0 : Page := initialPage (fun _ => field0).

Definition success (improved purposeLine : ustring) : Background.ExtensionResponse :=
  {| Background.result := Some improved;
     Background.purpose := Some purposeLine;
     Background.isSuccess := Some (JBool true);
     Background.error := None |}.

(** The icon of the field is activated: the panel opens and the request
    is sent. *)
Definition requested (script : Script) : Page :=
  fst (handleTextImprovementRequest script (u "helo wrld") 0 page0).

(** The background script answers with an improved text. *)
Definition suggested (script : Script) (improved : ustring) : Page :=
  improveTextResume script asciiLower noMessage
    (Responded (success improved (u "Fixed spelling"))) (requested script).

(** The icon is activated a second time before any answer arrives. *)
Definition requestedTwice (script : Script) : Page :=
  fst (handleTextImprovementRequest script (u "helo wrld") 0 (requested script)).

(** A rich-text editor whose request fails in the background because the
    service cannot be reached. *)
Definition editorRequested (script : Script) : Page :=
  fst (handleTextImprovementRequestForEditor script (u "teh cat") 1 true page0).

Definition failedToFetch : Background.GenerateReply :=
  Background.FetchRejected (ErrorObject (u "Failed to fetch")).

Definition editorFailed (script : Script) : Page :=
  improveTextAndHTMLResume script asciiLower
    (Responded (Background.handleMakeEditedElement noMessage
                  (u "teh cat") (u "<div class=ProseMirror><p>teh cat</p></div>")
                  failedToFetch))
    (editorRequested script).

Definition plainFailed (script : Script) : Page :=
  improveTextResume script asciiLower noMessage
    (Responded (Background.handleImproveText noMessage [] []
                  reads0 (u "helo wrld") true
                  failedToFetch))
    (requested script).

End Scenarios.

(* ================================================================== *)
(** * Part II: properties                                              *)
(* ================================================================== *)

(** ** Strings *)

Import JsString.

Lemma eqb_refl (a : ustring) : eqb a a = true.
Proof.
  induction a as [|x a IH]; simpl; [reflexivity|].
  now rewrite N.eqb_refl, IH.
Qed.

Lemma eqb_eq (a b : ustring) : eqb a b = true <-> a = b.
Proof.
  revert b; induction a as [|x a IH]; intros [|y b]; simpl; split;
    try congruence; try reflexivity.
  - intros H. apply andb_true_iff in H as [Hx Hr].
    apply N.eqb_eq in Hx. apply IH in Hr. congruence.
  - intros H. injection H as -> ->. now rewrite N.eqb_refl, eqb_refl.
Qed.

Lemma split_nonempty (sep : N) (s : ustring) : split sep s <> [].
Proof.
  destruct s as [|c s]; simpl; [discriminate|].
  destruct (N.eqb c sep); [discriminate|].
  destruct (split sep s); discriminate.
Qed.

(** The number of fields is one more than the number of separators. *)
Lemma split_length (sep : N) (s : ustring) :
  List.length (split sep s) = S (count_occ N.eq_dec s sep).
Proof.
  induction s as [|c s IH]; simpl; [reflexivity|].
  destruct (N.eqb_spec c sep) as [->|Hne].
  - destruct (N.eq_dec sep sep); [|congruence]. simpl. now rewrite IH.
  - destruct (N.eq_dec c sep); [congruence|].
    destruct (split sep s) eqn:E; simpl in *; [discriminate|exact IH].
Qed.

(** The fields of a text, each followed by the separator, make up the
    text followed by the separator. *)
Lemma split_concat (sep : N) (s : ustring) :
  List.concat (map (fun w => w ++ [sep]) (split sep s)) = s ++ [sep].
Proof.
  induction s as [|c s IH]; simpl; [reflexivity|].
  destruct (N.eqb_spec c sep) as [->|Hne]; simpl.
  - now rewrite IH.
  - destruct (split sep s) as [|w ws] eqn:E.
    + now apply split_nonempty in E.
    + simpl in *. now rewrite IH.
Qed.

(** ** The highlighter *)

Import Panel.

Section HighlightFacts.

Variable toLowerCase : ustring -> ustring.

(** The text built by the loops is the rendering of the marks. *)
Lemma highlightLoop_marks (improvedWords originalWords : list ustring)
    (highlighted : ustring) :
  highlightLoop toLowerCase originalWords improvedWords highlighted =
  highlighted ++ List.concat (map renderMark (highlightMarks toLowerCase originalWords improvedWords)).
Proof.
  revert originalWords highlighted.
  induction improvedWords as [|wj rest IH]; intros originalWords highlighted;
    cbn [highlightLoop highlightMarks].
  - cbn [map List.concat]. now rewrite app_nil_r.
  - destruct originalWords as [|wi originalRest].
    + rewrite IH. cbn [map List.concat renderMark].
      repeat rewrite <- app_assoc. reflexivity.
    + destruct (eqb (toLowerCase wi) (toLowerCase wj)); rewrite IH;
        cbn [map List.concat renderMark]; repeat rewrite <- app_assoc;
        reflexivity.
Qed.


Lemma highlightMarks_same (words : list ustring) :
  highlightMarks toLowerCase words words = map Plain words.
Proof.
  induction words as [|w ws IH]; simpl; [reflexivity|].
  now rewrite eqb_refl, IH.
Qed.

Lemma render_plain (words : list ustring) :
  List.concat (map renderMark (map Plain words)) =
  List.concat (map (fun w => w ++ [space]) words).
Proof.
  induction words as [|w ws IH]; simpl; [reflexivity|]. now rewrite IH.
Qed.

(** C9.  Highlighting a text against itself wraps no word: every word of
    the text is emitted as a plain word, and the markup is the text
    itself, its last word followed by a space that [trim] removes again.
    This holds for every text, the empty one included. *)
Theorem highlight_same_text_marks_nothing (T : ustring) :
  marksOf toLowerCase T T = map Plain (split space T) /\
  existsb isChanged (marksOf toLowerCase T T) = false /\
  highlightChanges toLowerCase T T = trim (T ++ [space]).
Proof.
  unfold marksOf, highlightChanges.
  rewrite highlightMarks_same. split; [reflexivity|]. split.
  - induction (split space T) as [|w ws IH]; simpl; auto.
  - rewrite highlightLoop_marks, highlightMarks_same, render_plain, split_concat.
    reflexivity.
Qed.

End HighlightFacts.

(** ** Length class and model selection *)

(** A text is short when it has at most nineteen spaces. *)
Lemma isShort_spaces (text : ustring) :
  isShort text = true <-> (count_occ N.eq_dec text space <= 19)%nat.
Proof.
  unfold isShort, shortTextThreshold. rewrite Nat.leb_le, split_length. lia.
Qed.

(** C8.  The word count of a text, the number of fields that splitting
    it on single spaces gives, is one more than its number of spaces;
    the length class is short exactly when the word count is at most 20;
    the message that the panel sends for a text carries that class; and
    the request that [improveText] sends to the service for the text and
    its class names the fast model and carries its temperature and its
    [top_p] when the word count is at most 20, and names the quality
    model and carries its options otherwise; in both cases the prompt is
    the template around the text and the answer is not streamed. *)
Theorem length_class_selects_model (engineMessage : Js.engineFault -> ustring)
    (promptHead promptTail : ustring) (reads : Background.Reads)
    (text : ustring) (reply : Background.GenerateReply) (st : PanelManager.Page) :
  let request :=
    fst (Background.improveText engineMessage promptHead promptTail reads text
           (isShort text) reply) in
  let models := Background.modelsOf reads in
  List.length (split space text) = S (count_occ N.eq_dec text space) /\
  (isShort text = true <-> (List.length (split space text) <= 20)%nat) /\
  (snd (PanelManager.improveTextStart text st) = true ->
   PanelManager.sent (fst (PanelManager.improveTextStart text st)) =
   PanelManager.sent st ++ [PanelManager.ImproveTextMessage text (isShort text)]) /\
  ((List.length (split space text) <= 20)%nat ->
   Background.model request = Background.name (Background.fast models) /\
   Background.options_temperature request =
     Background.temperature (Background.fast models) /\
   Background.options_top_p request = Background.top_p (Background.fast models)) /\
  ((20 < List.length (split space text))%nat ->
   Background.model request = Background.name (Background.quality models) /\
   Background.options_temperature request =
     Background.temperature (Background.quality models) /\
   Background.options_top_p request = Background.top_p (Background.quality models)) /\
  Background.prompt request = promptHead ++ text ++ promptTail /\
  Background.stream request = false.
Proof.
  cbv zeta.
  assert (Hshort : isShort text = true <-> (List.length (split space text) <= 20)%nat).
  { unfold isShort, shortTextThreshold. apply Nat.leb_le. }
  split; [apply split_length|]. split; [exact Hshort|]. split; [|split; [|split]].
  - unfold PanelManager.improveTextStart. simpl.
    destruct (PanelManager.isProcessing st); simpl; [discriminate|].
    destruct (PanelManager.panel st) eqn:E; simpl; [|discriminate].
    intros _. unfold PanelManager.showLoadingState. simpl. now rewrite E.
  - intros Hle. apply Hshort in Hle.
    unfold Background.improveText, Background.buildRequest, Background.selectModel.
    cbn [fst]. rewrite Hle. repeat split.
  - intros Hgt.
    assert (Hlong : isShort text = false).
    { unfold isShort, shortTextThreshold. apply Nat.leb_gt. exact Hgt. }
    unfold Background.improveText, Background.buildRequest, Background.selectModel.
    cbn [fst]. rewrite Hlong. repeat split.
  - split; reflexivity.
Qed.

(** ** Quotes around the suggestion *)




(** ** Activation of a ping icon *)

Import PingIcon.

(** C3, as the specification states it, fails: a selection of five
    characters whose trimmed text has one character is below the threshold
    after trimming, and activating the icon of its field still dispatches
    the improvement request, with the untrimmed text. *)
Lemma padded_selection_dispatches_request :
  List.length
    (trim (getInputSelection
             {| value := u "  a  "; selectionStart := Some 0; selectionEnd := Some 5 |}))
  = 1%nat /\
  handlePingClick 7
    {| value := u "  a  "; selectionStart := Some 0; selectionEnd := Some 5 |}
  = Some (TextImprovementRequest (u "  a  ") 7) /\
  handleEditorPingIconClick (Editor 7) (Selection 1 true (u "  a  ")) []
  = Some (TextImprovementRequestForEditor (u "  a  ") 7).
Proof. vm_compute. repeat split. Qed.

(** C3, amended.  Activating an icon dispatches no request exactly when
    the selected text, as it is and untrimmed, has fewer than three
    characters; this holds for the icon of a field and for the icon of a
    rich-text editor, whose selected text is the live selection or, when
    that is empty, the last selection remembered.  Otherwise the request
    carries the selected text unchanged. *)
Theorem short_selection_dispatches_nothing (id : nat) (inputElement : InputElement)
    (surface : Surface) (selection : WindowSelection) (lastSelectionText : ustring) :
  (handlePingClick id inputElement = None <->
   (List.length (getInputSelection inputElement) < 3)%nat) /\
  (handleEditorPingIconClick surface selection lastSelectionText = None <->
   (List.length (editorSelectedText surface selection lastSelectionText) < 3)%nat) /\
  ((3 <= List.length (getInputSelection inputElement))%nat ->
   handlePingClick id inputElement =
   Some (TextImprovementRequest (getInputSelection inputElement) id)) /\
  ((3 <= List.length (editorSelectedText surface selection lastSelectionText))%nat ->
   handleEditorPingIconClick surface selection lastSelectionText =
   Some (TextImprovementRequestForEditor
           (editorSelectedText surface selection lastSelectionText)
           (surfaceId surface))).
Proof.
  unfold handlePingClick, handleEditorPingIconClick, minSelectionLength.
  repeat split.
  - destruct (Nat.ltb_spec (List.length (getInputSelection inputElement)) 3);
      [auto|discriminate].
  - intros H. apply Nat.ltb_lt in H. now rewrite H.
  - destruct (Nat.ltb_spec
                (List.length (editorSelectedText surface selection lastSelectionText)) 3);
      [auto|discriminate].
  - intros H. apply Nat.ltb_lt in H. now rewrite H.
  - intros H. apply Nat.ltb_ge in H. now rewrite H.
  - intros H. apply Nat.ltb_ge in H. now rewrite H.
Qed.

(** ** Model configuration *)

Section ModelConfigFacts.
Import Background.

Variables (storage : StorageReply) (tags : TagsReply).

Let settings := getUserSettings storage.
Let available := getAvailableModels tags.

(** Both configured models are listed: the first branch of
    [getModelConfig], whatever the second reads would return. *)
Lemma getModelConfig_both_present (storage' : StorageReply) (tags' : TagsReply) :
  arrayIncludes available (name (fastModel settings)) = true ->
  arrayIncludes available (name (qualityModel settings)) = true ->
  getModelConfig storage tags storage' tags' =
  {| fast := fastModel settings; quality := qualityModel settings |}.
Proof.
  intros Hf Hq. unfold getModelConfig.
  fold settings available. now rewrite Hf, Hq.
Qed.

(** A configured model is missing: the answer is that of
    [getDynamicModelConfig] on the second reads. *)
Lemma getModelConfig_one_missing (storage' : StorageReply) (tags' : TagsReply) :
  arrayIncludes available (name (fastModel settings)) = false \/
  arrayIncludes available (name (qualityModel settings)) = false ->
  getModelConfig storage tags storage' tags' = getDynamicModelConfig storage' tags'.
Proof.
  intros H. unfold getModelConfig. fold settings available.
  destruct H as [H|H]; rewrite H; [reflexivity|].
  now rewrite andb_false_r.
Qed.

(** C4.  Every call of [improveText] resolves the configuration anew and
    checks it against the models the service lists at that call: when
    both configured models are listed, they are used; when one of them is
    not listed and exactly one model is listed, the fast and the quality
    configuration both name that model; when no model is listed, the
    default pair is used. *)
Theorem model_config_follows_available_models :
  (forall engineMessage promptHead promptTail text short reply,
     fst (improveText engineMessage promptHead promptTail
            (stableReads storage tags) text short reply) =
     buildRequest (selectModel (resolveModels storage tags) short)
       (createPrompt promptHead promptTail text)) /\
  (arrayIncludes available (name (fastModel settings)) = true ->
   arrayIncludes available (name (qualityModel settings)) = true ->
   resolveModels storage tags =
   {| fast := fastModel settings; quality := qualityModel settings |}) /\
  (forall single,
     arrayIncludes available (name (fastModel settings)) = false \/
     arrayIncludes available (name (qualityModel settings)) = false ->
     available = [single] ->
     resolveModels storage tags =
     {| fast := {| name := single; temperature := (3 # 10)%Q; top_p := (9 # 10)%Q |};
        quality := {| name := single; temperature := (4 # 10)%Q;
                      top_p := (95 # 100)%Q |} |}) /\
  (available = [] -> resolveModels storage tags = getDefaultModelConfig).
Proof.
  split; [reflexivity|].
  unfold resolveModels. repeat split.
  - intros Hf Hq. now apply getModelConfig_both_present.
  - intros single Hmiss Hone.
    rewrite getModelConfig_one_missing by assumption.
    unfold getDynamicModelConfig. fold available. now rewrite Hone.
  - intros Hnil. rewrite getModelConfig_one_missing.
    + unfold getDynamicModelConfig. fold available. now rewrite Hnil.
    + left. now rewrite Hnil.
Qed.

End ModelConfigFacts.

(** Two models are configured (the defaults) and the service lists only
    the first of them: both configurations name that model. *)
Lemma model_config_single_model_witness :
  Background.name
    (Background.fast
       (Background.resolveModels (Background.Stored None)
          (Background.TagsBody (Some [u "llama3.2:3b"])))) = u "llama3.2:3b" /\
  Background.name
    (Background.quality
       (Background.resolveModels (Background.Stored None)
          (Background.TagsBody (Some [u "llama3.2:3b"])))) = u "llama3.2:3b" /\
  Background.resolveModels (Background.Stored None) (Background.TagsBody None) =
  Background.getDefaultModelConfig.
Proof.
  pose proof (model_config_follows_available_models (Background.Stored None)
                (Background.TagsBody (Some [u "llama3.2:3b"]))) as [_ [_ [H _]]].
  pose proof (model_config_follows_available_models (Background.Stored None)
                (Background.TagsBody None)) as [_ [_ [_ H0]]].
  rewrite (H (u "llama3.2:3b")).
  - split; [reflexivity|]. split; [reflexivity|]. apply H0. reflexivity.
  - right. vm_compute. reflexivity.
  - reflexivity.
Defined.

(** ** Replacing the selection *)

Lemma substring_prefix (s : ustring) (n : nat) :
  substring s 0 n = firstn n s.
Proof.
  unfold substring. simpl.
  rewrite Nat.sub_0_r.
  destruct (Nat.le_ge_cases n (List.length s)) as [H|H].
  - now rewrite Nat.min_l.
  - rewrite Nat.min_r by assumption. now rewrite !firstn_all2 by lia.
Qed.

Lemma substringFrom_suffix (s : ustring) (n : nat) :
  substringFrom s n = skipn n s.
Proof.
  unfold substringFrom, substring.
  rewrite Nat.min_id.
  destruct (Nat.le_ge_cases n (List.length s)) as [H|H].
  - rewrite (Nat.min_l n) by assumption.
    rewrite Nat.min_l, Nat.max_r by assumption.
    apply firstn_all2. rewrite length_skipn. lia.
  - rewrite (Nat.min_r n) by assumption.
    rewrite Nat.min_id, Nat.max_id, Nat.sub_diag. simpl.
    now rewrite skipn_all2.
Qed.

Section ReplaceFacts.
Import PanelManager.

Variable script : Script.
Variable kindOf : nat -> FieldKind.
Variable textContent : ustring -> ustring.

Lemma replaceInField_fields (text : ustring) (id : nat) (st : Page) (i : nat) :
  fields (replaceInField script kindOf text id st) i =
  if Nat.eqb i id then replacedField (kindOf id) text (fields st id)
  else fields st i.
Proof.
  unfold replaceInField, hidePanel. simpl.
  destruct (panel st); destruct script; reflexivity.
Qed.

Lemma replaceInField_effects (text : ustring) (id : nat) (st : Page) :
  effects (replaceInField script kindOf text id st) =
  effects st ++ [(id, InputEvent); (id, ChangeEvent); (id, Focused)].
Proof.
  unfold replaceInField, hidePanel. simpl.
  destruct (panel st); destruct script; simpl; now rewrite <- !app_assoc.
Qed.

Lemma replaceInField_panel (text : ustring) (id : nat) (st : Page) :
  panel (replaceInField script kindOf text id st) = None.
Proof.
  unfold replaceInField, hidePanel. simpl.
  destruct (panel st) eqn:E; destruct script; simpl; auto.
Qed.

(** A text made of characters that the field keeps is stored as it is,
    and a value that an assignment leaves alone is made of such
    characters. *)
Lemma assignedValue_keeps (kind : FieldKind) (text : ustring) :
  forallb (keeps kind) text = true -> assignedValue kind text = text.
Proof.
  destruct kind; simpl.
  - unfold stripNewlines. induction text as [|c t IH]; simpl; [reflexivity|].
    intros H. apply andb_true_iff in H. destruct H as [Hc Ht].
    rewrite Hc. now rewrite IH.
  - induction text as [|c t IH]; simpl; [reflexivity|].
    intros H. apply andb_true_iff in H. destruct H as [Hc Ht].
    apply negb_true_iff in Hc. rewrite Hc. now rewrite IH.
Qed.

Lemma assignedValue_fixed (kind : FieldKind) (text : ustring) :
  assignedValue kind text = text -> forallb (keeps kind) text = true.
Proof.
  destruct kind; simpl.
  - unfold stripNewlines. induction text as [|c t IH]; simpl; [reflexivity|].
    destruct (negb (isLineBreak c)) eqn:E; simpl.
    + intros H. injection H as H. now apply IH.
    + intros H. pose proof (filter_length_le (fun c => negb (isLineBreak c)) t) as L.
      rewrite H in L. simpl in L. lia.
  - induction text as [|c t IH]; simpl; [reflexivity|].
    destruct (N.eqb_spec c 13) as [->|Hc]; simpl.
    + intros H. discriminate.
    + intros H. injection H as H. now apply IH.
Qed.

Lemma stripNewlines_app (a b : ustring) :
  stripNewlines (a ++ b) = stripNewlines a ++ stripNewlines b.
Proof. apply filter_app. Qed.

Lemma forallb_firstn {A : Type} (f : A -> bool) (n : nat) (l : list A) :
  forallb f l = true -> forallb f (firstn n l) = true.
Proof.
  revert n. induction l as [|x l IH]; intros [|n] H; simpl in *; auto.
  apply andb_true_iff in H. destruct H as [Hx Hl]. rewrite Hx. now apply IH.
Qed.

Lemma forallb_skipn {A : Type} (f : A -> bool) (n : nat) (l : list A) :
  forallb f l = true -> forallb f (skipn n l) = true.
Proof.
  revert n. induction l as [|x l IH]; intros [|n] H; simpl in *; auto.
  apply andb_true_iff in H. destruct H as [Hx Hl]. now apply IH.
Qed.

Lemma no_line_break_keeps (kind : FieldKind) (text : ustring) :
  forallb (fun c => negb (isLineBreak c)) text = true ->
  forallb (keeps kind) text = true.
Proof.
  intros H. destruct kind; [exact H|].
  induction text as [|c t IH]; simpl in *; [reflexivity|].
  apply andb_true_iff in H. destruct H as [Hc Ht]. rewrite IH by exact Ht.
  unfold isLineBreak in Hc. apply negb_true_iff, orb_false_iff in Hc.
  destruct Hc as [_ Hc]. now rewrite Hc.
Qed.

(** C7, amended.  When the panel shows a suggestion whose text is not
    empty, no rich-text fragment is pending, and the field's selection
    offsets satisfy [start <= end <= length of the value], Replace
    assigns to the field the characters before [start], the suggestion
    text and the characters from [end] on, and the field holds what its
    kind keeps of the assignment; both selection offsets become [start]
    plus the length of the text, clamped to the length of the new value;
    an input and a change event are dispatched on the field and it is
    focused; the other fields are untouched and the panel is closed.
    When the text is made of characters that the field keeps (no line
    break for a single-line input, no carriage return for a text area),
    in a field whose value is one that an assignment leaves alone, the
    value is exactly the three parts, the characters outside the
    selected range are unchanged and the cursor is at [start] plus the
    length of the text.  A single-line input drops the line breaks of
    the text. *)
Theorem replace_selection_in_field (st : Page) (p : PanelElement) (id : nat)
    (text : ustring) (start end_ : nat) :
  panel st = Some p ->
  textContent (suggestionHtml p) = text ->
  text <> [] ->
  proseMirrorEditor st = None ->
  currentInputElement st = Some id ->
  selectionStart (fields st id) = Some start ->
  selectionEnd (fields st id) = Some end_ ->
  (start <= end_ <= List.length (value (fields st id)))%nat ->
  let before := value (fields st id) in
  let st' := replaceSelection script kindOf textContent st in
  let after := value (fields st' id) in
  let cursor := Nat.min (start + List.length text) (List.length after) in
  after = assignedValue (kindOf id)
            (firstn start before ++ text ++ skipn end_ before) /\
  selectionStart (fields st' id) = Some cursor /\
  selectionEnd (fields st' id) = Some cursor /\
  effects st' = effects st ++ [(id, InputEvent); (id, ChangeEvent); (id, Focused)] /\
  (forall other, other <> id -> fields st' other = fields st other) /\
  panel st' = None /\
  (assignedValue (kindOf id) before = before ->
   forallb (keeps (kindOf id)) text = true ->
   after = firstn start before ++ text ++ skipn end_ before /\
   firstn start after = firstn start before /\
   skipn (start + List.length text) after = skipn end_ before /\
   cursor = (start + List.length text)%nat) /\
  (kindOf id = SingleLine ->
   assignedValue SingleLine before = before ->
   after = firstn start before ++ stripNewlines text ++ skipn end_ before /\
   firstn start after = firstn start before /\
   List.length after =
     (start + List.length (stripNewlines text) + (List.length before - end_))%nat).
Proof.
  intros Hpanel Htext Hne Hed Hcur Hstart Hend Hrange before st' after cursor.
  assert (Hst' : fields st' = fields (replaceInField script kindOf text id st) /\
                 effects st' = effects (replaceInField script kindOf text id st) /\
                 panel st' = panel (replaceInField script kindOf text id st)).
  { subst st'. unfold replaceSelection, suggestionText.
    rewrite Hpanel, Htext, Hed, Hcur.
    destruct text as [|c t]; [contradiction|].
    destruct script; repeat split. }
  destruct Hst' as [Hf [He Hp]].
  assert (Hlen : List.length (firstn start before) = start).
  { apply firstn_length_le. subst before. lia. }
  set (assigned := assignedValue (kindOf id)
                     (firstn start before ++ text ++ skipn end_ before)).
  assert (Hel : fields st' id =
                {| value := assigned;
                   selectionStart :=
                     Some (Nat.min (start + List.length text) (List.length assigned));
                   selectionEnd :=
                     Some (Nat.min (start + List.length text) (List.length assigned))
                |}).
  { rewrite Hf, replaceInField_fields, Nat.eqb_refl.
    unfold replacedField, setSelectionRange. rewrite Hstart, Hend. simpl.
    rewrite substring_prefix, substringFrom_suffix. reflexivity. }
  assert (Hval : after = assigned) by (subst after; now rewrite Hel).
  assert (Hcursor : cursor = Nat.min (start + List.length text) (List.length assigned))
    by (subst cursor; now rewrite Hval).
  split; [exact Hval|].
  split; [rewrite Hel, Hcursor; reflexivity|].
  split; [rewrite Hel, Hcursor; reflexivity|].
  split; [rewrite He; apply replaceInField_effects|].
  split.
  { intros other Hother. rewrite Hf, replaceInField_fields.
    apply Nat.eqb_neq in Hother. now rewrite Hother. }
  split; [rewrite Hp; apply replaceInField_panel|].
  split.
  - intros Hheld Htextok.
    apply assignedValue_fixed in Hheld.
    assert (Hall : assigned = firstn start before ++ text ++ skipn end_ before).
    { unfold assigned. apply assignedValue_keeps.
      rewrite !forallb_app.
      rewrite (forallb_firstn _ start _ Hheld), (forallb_skipn _ end_ _ Hheld).
      now rewrite Htextok. }
    rewrite Hcursor, Hval, Hall.
    split; [reflexivity|].
    split; [rewrite firstn_app, Hlen, Nat.sub_diag; simpl;
            now rewrite app_nil_r, firstn_firstn, Nat.min_id|].
    split.
    { rewrite app_assoc, skipn_app.
      rewrite length_app, Hlen, Nat.sub_diag. simpl.
      rewrite skipn_all2 by (rewrite length_app, Hlen; lia). reflexivity. }
    rewrite !length_app, Hlen. lia.
  - intros Hkind Hheld.
    apply assignedValue_fixed in Hheld.
    assert (Hall : assigned =
                   firstn start before ++ stripNewlines text ++ skipn end_ before).
    { unfold assigned. rewrite Hkind. simpl.
      rewrite !stripNewlines_app.
      pose proof (assignedValue_keeps SingleLine (firstn start before)
                    (forallb_firstn _ start _ Hheld)) as Ha.
      pose proof (assignedValue_keeps SingleLine (skipn end_ before)
                    (forallb_skipn _ end_ _ Hheld)) as Hb.
      simpl in Ha, Hb. now rewrite Ha, Hb. }
    rewrite Hval, Hall.
    split; [reflexivity|].
    split; [rewrite firstn_app, Hlen, Nat.sub_diag; simpl;
            now rewrite app_nil_r, firstn_firstn, Nat.min_id|].
    rewrite !length_app, Hlen, length_skipn. fold before. lia.
Qed.

(** With an empty suggestion text Replace leaves the page as it is (but
    for [isProcessing] in the reworked script). *)
Lemma replace_selection_empty_text (st : Page) :
  suggestionText textContent st = [] ->
  proseMirrorEditor st = None ->
  fields (replaceSelection script kindOf textContent st) = fields st /\
  effects (replaceSelection script kindOf textContent st) = effects st /\
  panel (replaceSelection script kindOf textContent st) = panel st.
Proof.
  intros Htext Hed. unfold replaceSelection. rewrite Htext, Hed.
  destruct script; repeat split.
Qed.

End ReplaceFacts.

Import PanelManager Scenarios.

(** C7, as the specification states it, fails in two ways.  The field is
    a single-line input that holds [helo wrld], selected from 0 to 9.
    When the model answers with an empty improved text the panel shows
    the suggestion block, its text is empty, and Replace neither changes
    the value (as stated it would become the empty prefix, the empty suggestion
    and the empty suffix) nor dispatches an event.  When the model
    answers with [Hello], a line feed and [world], the text of the
    suggestion has eleven characters, but the field holds the ten
    characters [Helloworld] after Replace and the cursor stands at 10,
    not at 11. *)
Lemma replace_with_empty_or_two_line_suggestion :
  option_map view (panel (suggested ContentTs [])) = Some SuggestionContent /\
  suggestionText plainTextOf (suggested ContentTs []) = [] /\
  fields (replaceSelection ContentTs inputs plainTextOf (suggested ContentTs [])) 0%nat
  = {| value := u "helo wrld"; selectionStart := Some 0%nat; selectionEnd := Some 9%nat |} /\
  effects (replaceSelection ContentTs inputs plainTextOf (suggested ContentTs [])) = [] /\
  suggestionText plainTextOf (suggested ContentTs (u "Hello" ++ [newline] ++ u "world"))
  = u "Hello" ++ [newline] ++ u "world" /\
  fields (replaceSelection ContentTs inputs plainTextOf
            (suggested ContentTs (u "Hello" ++ [newline] ++ u "world"))) 0%nat
  = {| value := u "Helloworld"; selectionStart := Some 10%nat;
       selectionEnd := Some 10%nat |}.
Proof. vm_compute. repeat split. Qed.

(** The first scenario of the specification: the suggestion [Hello world]
    replaces the whole selection, the cursor stands behind it, and the
    input and change events were dispatched. *)
Lemma replace_selection_scenario_witness :
  value (fields (replaceSelection ContentTs inputs plainTextOf
                   (suggested ContentTs (u "Hello world"))) 0%nat)
  = u "Hello world" /\
  selectionStart (fields (replaceSelection ContentTs inputs plainTextOf
                            (suggested ContentTs (u "Hello world"))) 0%nat)
  = Some 11%nat /\
  effects (replaceSelection ContentTs inputs plainTextOf
             (suggested ContentTs (u "Hello world")))
  = [(0%nat, InputEvent); (0%nat, ChangeEvent); (0%nat, Focused)].
Proof.
  destruct (panel (suggested ContentTs (u "Hello world"))) as [p|] eqn:Hp;
    [|vm_compute in Hp; discriminate].
  pose proof (@replace_selection_in_field ContentTs inputs plainTextOf
                (suggested ContentTs (u "Hello world")) p 0%nat
                (u "Hello world") 0%nat 9%nat Hp) as H.
  cbv zeta in H.
  destruct H as [Hv [Hs [_ [He _]]]];
    try reflexivity; try discriminate; try (vm_compute; lia).
  - vm_compute in Hp. injection Hp as <-. vm_compute. reflexivity.
  - rewrite Hv, Hs, He. repeat split.
Defined.

(** ** Single flight *)

(** In [content.ts] a request that arrives while another one is being
    processed sends nothing: [isProcessing] is still set when
    [improveText] tests it. *)
Lemma content_ts_request_while_processing (text : ustring) (id : nat) (st : Page) :
  isProcessing st = true ->
  sent (fst (handleTextImprovementRequest ContentTs text id st)) = sent st /\
  snd (handleTextImprovementRequest ContentTs text id st) = false.
Proof.
  intros H. unfold handleTextImprovementRequest, improveTextStart, showPanel, hidePanel.
  destruct (panel (setCurrent text id st)); simpl; rewrite H; simpl; auto.
Qed.

(** In the reworked script [showPanel] goes through [hidePanel], which
    clears [isProcessing], before [improveText] tests it: every request
    event sends a message, whatever the state. *)
Lemma reworked_request_always_sends (text : ustring) (id : nat) (st : Page) :
  sent (fst (handleTextImprovementRequest Reworked text id st)) =
  sent st ++ [ImproveTextMessage text (isShort text)] /\
  snd (handleTextImprovementRequest Reworked text id st) = true.
Proof.
  unfold handleTextImprovementRequest, improveTextStart, showPanel, hidePanel.
  destruct (panel (setCurrent text id st)); simpl; auto.
Qed.

(** C2, on the reworked content script.  The icon of a field is activated
    twice with no answer in between: after the first activation the
    manager is processing and one message has been sent; the second
    activation sends a second message.  [content.ts] sends only one. *)
Theorem second_activation_sends_second_request :
  isProcessing (requested Reworked) = true /\
  sent (requested Reworked) = [ImproveTextMessage (u "helo wrld") true] /\
  sent (requestedTwice Reworked) =
    [ImproveTextMessage (u "helo wrld") true; ImproveTextMessage (u "helo wrld") true] /\
  sent (requestedTwice ContentTs) = [ImproveTextMessage (u "helo wrld") true].
Proof. vm_compute. repeat split. Qed.

(** ** Error messages *)

Lemma friendlyMessageOf_fixed (errorString : ustring) :
  In (Background.friendlyMessageOf errorString) Background.friendlyMessages.
Proof.
  unfold Background.friendlyMessageOf, Background.friendlyMessages.
  repeat match goal with
         | |- In (if ?b then _ else _) _ => destruct b
         end; simpl; tauto.
Qed.

Section ServiceFacts.
Import Background.

Variable engineMessage : Js.engineFault -> ustring.
Variables promptHead promptTail : ustring.

(** Whatever goes wrong inside [improveText], the error it throws carries
    one of the fixed sentences. *)
Lemma improveText_throws_fixed_sentence (reads : Reads) (text : ustring)
    (short : bool) (reply : GenerateReply) (e : Js.thrown) :
  snd (improveText engineMessage promptHead promptTail reads text short reply)
  = Js.Throw e ->
  exists sentence, e = Js.ErrorObject sentence /\ In sentence friendlyMessages.
Proof.
  unfold improveText. simpl.
  destruct (improveTextBody reply) as [r|e0]; [discriminate|].
  intros H. injection H as <-.
  eexists. split; [reflexivity|]. apply friendlyMessageOf_fixed.
Qed.

(** So the response that [handleImproveText] sends for a failed call has
    one of the fixed sentences as its error. *)
Lemma handleImproveText_error_fixed (reads : Reads) (text : ustring)
    (short : bool) (reply : GenerateReply) (e : Js.thrown) :
  improveTextBody reply = Js.Throw e ->
  exists sentence,
    handleImproveText engineMessage promptHead promptTail reads text short reply =
    {| result := None; purpose := None; isSuccess := Some (Json.JBool false);
       error := Some sentence |} /\
    In sentence friendlyMessages.
Proof.
  intros H. unfold handleImproveText, improveText. simpl. rewrite H. simpl.
  eexists. split; [reflexivity|]. apply friendlyMessageOf_fixed.
Qed.

(** [replaceTextWithFormating] passes the message of the error on as it
    is. *)
Lemma replaceTextWithFormating_error_raw (e : Js.thrown) :
  error (replaceTextWithFormating engineMessage (FetchRejected e)) =
  Some (errorString engineMessage e).
Proof. reflexivity. Qed.

End ServiceFacts.

(** After a failed request of a field, Retry sends the same message again. *)
Lemma retry_resends_request (st : Page) (p : PanelElement) :
  panel st = Some p ->
  isProcessing st = false ->
  sent (fst (retryClick st)) =
  sent st ++ [ImproveTextMessage (currentInputText st) (isShort (currentInputText st))].
Proof.
  intros Hp Hproc. unfold retryClick, improveTextStart. simpl.
  rewrite Hproc, Hp. simpl. unfold showLoadingState. simpl.
  now rewrite Hp.
Qed.

(** C6, on the rich-text path.  The service cannot be reached and fetch
    rejects with the message [Failed to fetch].  For a field, the panel
    shows the fixed sentence for a connection failure and Retry sends the
    same message again.  For a rich-text editor, the response carries the
    message of the exception itself, which is none of the fixed
    sentences, the panel shows it, and Retry sends a request of the other
    kind. *)
Theorem formatting_path_shows_raw_error :
  option_map errorMessage (panel (plainFailed Reworked)) =
    Some (Some Background.msgConnect) /\
  sent (fst (retryClick (plainFailed Reworked))) =
    [ImproveTextMessage (u "helo wrld") true; ImproveTextMessage (u "helo wrld") true] /\
  Background.error
    (Background.handleMakeEditedElement noMessage (u "teh cat")
       (u "<div class=ProseMirror><p>teh cat</p></div>") failedToFetch) =
    Some (u "Failed to fetch") /\
  existsb (eqb (u "Failed to fetch")) Background.friendlyMessages = false /\
  option_map view (panel (editorFailed Reworked)) = Some ErrorState /\
  option_map errorMessage (panel (editorFailed Reworked)) =
    Some (Some (u "Failed to fetch")) /\
  sent (fst (retryClick (editorFailed Reworked))) =
    [MakeEditedElementMessage (u "teh cat"); ImproveTextMessage (u "teh cat") true].
Proof. vm_compute. repeat split. Qed.

(** ** The JSON parser never runs out of fuel *)

Section ParserFuel.
Import Json.

Lemma skipWs_length (s : ustring) :
  (List.length (skipWs s) <= List.length s)%nat.
Proof.
  induction s as [|c s IH]; simpl; [lia|].
  destruct (isJsonSpace c); simpl; lia.
Qed.

Lemma skipWs_cons_length (s : ustring) (c : N) (r : ustring) :
  skipWs s = c :: r -> (List.length r < List.length s)%nat.
Proof.
  intros H. pose proof (skipWs_length s) as Hl. rewrite H in Hl. simpl in Hl. lia.
Qed.

Lemma parseChars_shorter_upto (n : nat) (s str rest : ustring) :
  (List.length s <= n)%nat ->
  parseChars s = Some (str, rest) ->
  (List.length rest < List.length s)%nat.
Proof.
  revert s str rest.
  induction n as [|n IH]; intros s str rest Hn H.
  - destruct s; [discriminate|simpl in Hn; lia].
  - destruct s as [|c r]; [discriminate|]. simpl in H, Hn.
    destruct (N.eqb c 34).
    { injection H as _ <-. simpl. lia. }
    destruct (N.eqb c 92).
    { destruct r as [|e r1]; [discriminate|].
      destruct (N.eqb e 117).
      - destruct r1 as [|h1 [|h2 [|h3 [|h4 r2]]]]; try discriminate.
        destruct (hex4 h1 h2 h3 h4); [|discriminate].
        destruct (parseChars r2) as [[str' rest']|] eqn:E; [|discriminate].
        injection H as _ <-.
        apply IH in E; simpl in *; lia.
      - destruct (simpleEscape e); [|discriminate].
        destruct (parseChars r1) as [[str' rest']|] eqn:E; [|discriminate].
        injection H as _ <-.
        apply IH in E; simpl in *; lia. }
    destruct (c <? 32)%N; [discriminate|].
    destruct (parseChars r) as [[str' rest']|] eqn:E; [|discriminate].
    injection H as _ <-.
    apply IH in E; simpl in *; lia.
Qed.

Lemma parseChars_shorter (s str rest : ustring) :
  parseChars s = Some (str, rest) ->
  (List.length rest < List.length s)%nat.
Proof. apply (parseChars_shorter_upto (n := List.length s)). lia. Qed.

Lemma spanDigits_length (s : ustring) (acc : N) (count : nat) :
  (List.length (snd (spanDigits s acc count)) <= List.length s)%nat.
Proof.
  revert acc count. induction s as [|c s IH]; intros acc count; simpl; [lia|].
  destruct (isDigit c); simpl; [|lia].
  specialize (IH (acc * 10 + digitValue c)%N (S count)). lia.
Qed.

Lemma parseNumber_shorter (s : ustring) (n : number) (rest : ustring) :
  parseNumber s = Some (n, rest) ->
  (List.length rest < List.length s)%nat.
Proof.
  unfold parseNumber.
  assert (Hint : forall t m t', parseInt t = Some (m, t') ->
                 (List.length t' < List.length t)%nat).
  { intros t m t'. unfold parseInt. destruct t as [|c t0]; [discriminate|].
    destruct (N.eqb c 48); [intros H; injection H as _ <-; simpl; lia|].
    destruct (isDigit c); [|discriminate].
    pose proof (spanDigits_length t0 (digitValue c) 1) as Hl.
    destruct (spanDigits t0 (digitValue c) 1) as [[m0 k] r0]. simpl in Hl.
    intros H; injection H as _ <-. simpl. lia. }
  assert (Hfrac : forall i t m k t', parseFrac i t = Some (m, k, t') ->
                  (List.length t' <= List.length t)%nat).
  { intros i t m k t'. unfold parseFrac. destruct t as [|c t0].
    - intros H; injection H as _ _ <-. simpl; lia.
    - destruct (N.eqb c 46).
      + pose proof (spanDigits_length t0 i 0) as Hl.
        destruct (spanDigits t0 i 0) as [[m0 k0] r0]. simpl in Hl.
        destruct k0; [discriminate|].
        intros H; injection H as _ _ <-. simpl; lia.
      + intros H; injection H as _ _ <-. simpl; lia. }
  assert (Hexp : forall t e t', parseExp t = Some (e, t') ->
                 (List.length t' <= List.length t)%nat).
  { intros t e t'. unfold parseExp. destruct t as [|c t0].
    - intros H; injection H as _ <-. simpl; lia.
    - destruct (N.eqb c 101 || N.eqb c 69).
      + assert (Hs : forall sg t2, (List.length t2 <= List.length t0)%nat ->
                     match spanDigits t2 0 0 with
                     | (_, O, _) => None
                     | (n0, S _, rest0) => Some ((sg * Z.of_N n0)%Z, rest0)
                     end = Some (e, t') ->
                     (List.length t' <= List.length (c :: t0))%nat).
        { intros sg t2 Hle. pose proof (spanDigits_length t2 0 0) as Hl.
          destruct (spanDigits t2 0 0) as [[m0 k0] r0]. simpl in Hl.
          destruct k0; [discriminate|].
          intros H; injection H as _ <-. simpl; lia. }
        destruct t0 as [|d t1].
        * apply (Hs 1%Z []). simpl; lia.
        * destruct (N.eqb d 45); [apply (Hs (-1)%Z t1); simpl; lia|].
          destruct (N.eqb d 43); [apply (Hs 1%Z t1); simpl; lia|].
          apply (Hs 1%Z (d :: t1)); simpl; lia.
      + intros H; injection H as _ <-. simpl; lia. }
  destruct s as [|c s0].
  - simpl. discriminate.
  - assert (Htail : forall neg s1, (List.length s1 <= List.length (c :: s0))%nat ->
        match parseInt s1 with
        | Some (int, s2) =>
            match parseFrac int s2 with
            | Some (m, k, s3) =>
                match parseExp s3 with
                | Some (e, s4) =>
                    Some ({| negative := neg; mantissa := m;
                             exponent := (e - Z.of_nat k)%Z |}, s4)
                | None => None
                end
            | None => None
            end
        | None => None
        end = Some (n, rest) ->
        (List.length rest < List.length (c :: s0))%nat).
    { intros neg s1 Hstart.
      destruct (parseInt s1) as [[i s2]|] eqn:Ei; [|discriminate].
      destruct (parseFrac i s2) as [[[m k] s3]|] eqn:Ef; [|discriminate].
      destruct (parseExp s3) as [[e s4]|] eqn:Ee; [|discriminate].
      intros H; injection H as _ <-.
      apply Hint in Ei. apply Hfrac in Ef. apply Hexp in Ee. lia. }
    destruct (N.eqb c 45); apply Htail; simpl; lia.
Qed.

Ltac break_parser H :=
  repeat match type of H with
         | context [match ?x with _ => _ end] =>
             destruct x eqn:?; try discriminate H
         end.

Ltac parser_lengths IHv IHm IHe :=
  repeat match goal with
         | H : skipWs _ = _ :: _ |- _ => apply skipWs_cons_length in H
         | H : parseChars _ = Some _ |- _ => apply parseChars_shorter in H
         | H : parseNumber _ = Some _ |- _ => apply parseNumber_shorter in H
         | H : parseValue _ _ = Parsed _ _ |- _ => apply IHv in H
         | H : parseMembers _ _ = Parsed _ _ |- _ => apply IHm in H
         | H : parseElements _ _ = Parsed _ _ |- _ => apply IHe in H
         end.

Lemma expectWord_shorter (w : ustring) (v a : value) (c : N) (r rest : ustring) :
  expectWord w v (c :: r) = Parsed a rest ->
  w <> [] ->
  (List.length rest < List.length (c :: r))%nat.
Proof.
  unfold expectWord. destruct (startsWith w (c :: r)); [|discriminate].
  intros H Hw. injection H as _ <-.
  rewrite length_skipn. destruct w; [contradiction|]. simpl. lia.
Qed.

(** A successful parse consumes at least one character. *)
Lemma parse_shorter (fuel : nat) :
  (forall s v rest, parseValue fuel s = Parsed v rest ->
                    (List.length rest < List.length s)%nat) /\
  (forall s ms rest, parseMembers fuel s = Parsed ms rest ->
                     (List.length rest < List.length s)%nat) /\
  (forall s xs rest, parseElements fuel s = Parsed xs rest ->
                     (List.length rest < List.length s)%nat).
Proof.
  induction fuel as [|f [IHv [IHm IHe]]].
  - repeat split; intros; discriminate.
  - repeat split; intros s a rest H; cbn [parseValue parseMembers parseElements] in H;
      break_parser H;
      try (apply expectWord_shorter in H; [|discriminate]);
      try (injection H as _ <-);
      parser_lengths IHv IHm IHe; simpl in *; lia.
Qed.

Ltac parsed_lengths :=
  repeat match goal with
         | H : skipWs _ = _ :: _ |- _ => apply skipWs_cons_length in H
         | H : parseChars _ = Some _ |- _ => apply parseChars_shorter in H
         | H : parseValue _ _ = Parsed _ _ |- _ => apply parse_shorter in H
         end.

Ltac fuel_contradiction IHv IHm IHe :=
  match goal with
  | H : parseValue _ _ = OutOfFuel |- _ => exfalso; eapply IHv; [|exact H]
  | H : parseMembers _ _ = OutOfFuel |- _ => exfalso; eapply IHm; [|exact H]
  | H : parseElements _ _ = OutOfFuel |- _ => exfalso; eapply IHe; [|exact H]
  end.

(** With two units of fuel for every character and one more, the parser
    never stops for lack of fuel. *)
Lemma parse_has_fuel (fuel : nat) :
  (forall s, (2 * List.length s + 1 <= fuel)%nat -> parseValue fuel s <> OutOfFuel) /\
  (forall s, (2 * List.length s + 1 <= fuel)%nat -> parseMembers fuel s <> OutOfFuel) /\
  (forall s, (2 * List.length s + 2 <= fuel)%nat -> parseElements fuel s <> OutOfFuel).
Proof.
  induction fuel as [|f [IHv [IHm IHe]]].
  - repeat split; intros s Hf; lia.
  - repeat split; intros s Hf H; cbn [parseValue parseMembers parseElements] in H;
      unfold expectWord in H; break_parser H;
      fuel_contradiction IHv IHm IHe; parsed_lengths; simpl in *; lia.
Qed.

Lemma parseDocument_has_fuel (text : ustring) :
  parseDocument text <> OutOfFuel.
Proof.
  unfold parseDocument, fuelFor.
  pose proof (proj1 (parse_has_fuel (2 * List.length text + 2)) text) as H.
  destruct (parseValue (2 * List.length text + 2) text) as [v rest| |].
  - destruct (skipWs rest); discriminate.
  - discriminate.
  - exfalso. apply H; [lia|reflexivity].
Qed.

(** So [parse] gives [None] only on a text that is not JSON. *)
Lemma parse_None_is_syntax_error (text : ustring) :
  parse text = None <-> parseDocument text = SyntaxError.
Proof.
  unfold parse. pose proof (parseDocument_has_fuel text) as H.
  destruct (parseDocument text); split; intros; try discriminate;
    try reflexivity; contradiction.
Qed.

End ParserFuel.

(** ** The layered response parser *)

Section LayeredParserFacts.
Import Json Js LayeredParser.

(** Lines that mention none of the key words leave the scan as it is. *)
Lemma scanLines_no_improved (lines : list ustring) (improvedText purp : ustring) :
  forallb (fun line => negb (mentionsImprovedText line)) lines = true ->
  fst (scanLines lines improvedText purp) = improvedText.
Proof.
  revert improvedText purp.
  induction lines as [|line rest IH]; intros improvedText purp H; simpl in *;
    [reflexivity|].
  apply andb_true_iff in H as [Hline Hrest].
  apply negb_true_iff in Hline. rewrite Hline. now apply IH.
Qed.

Lemma scanLines_no_purpose (lines : list ustring) (improvedText purp : ustring) :
  forallb (fun line => negb (mentionsPurpose line)) lines = true ->
  snd (scanLines lines improvedText purp) = purp.
Proof.
  revert improvedText purp.
  induction lines as [|line rest IH]; intros improvedText purp H; simpl in *;
    [reflexivity|].
  apply andb_true_iff in H as [Hline Hrest].
  apply negb_true_iff in Hline. rewrite Hline. now apply IH.
Qed.

Lemma lineScan_fields (responseText : ustring) :
  let lines := nonEmptyLines responseText in
  let scanned := fst (scanLines lines [] defaultPurpose) in
  let improvedText :=
    match scanned, lines with
    | [], first :: _ => first
    | _, _ => scanned
    end in
  improved_text (lineScan responseText) =
    (if isEmpty improvedText then responseText else improvedText) /\
  purpose (lineScan responseText) = snd (scanLines lines [] defaultPurpose).
Proof.
  unfold lineScan.
  destruct (scanLines (nonEmptyLines responseText) [] defaultPurpose) as [scanned purp].
  simpl. split; reflexivity.
Qed.

Lemma scanLines_app (before after : list ustring) (improvedText purp : ustring) :
  scanLines (before ++ after) improvedText purp =
  scanLines after (fst (scanLines before improvedText purp))
    (snd (scanLines before improvedText purp)).
Proof.
  revert improvedText purp.
  induction before as [|line rest IH]; intros improvedText purp; simpl;
    [reflexivity|apply IH].
Qed.

Lemma spanNonQuote_fst (s : ustring) :
  forall run rest, spanNonQuote s = (run, rest) ->
  forallb (fun c => negb (isQuote c)) run = true.
Proof.
  induction s as [|c s IH]; intros run rest H; simpl in H.
  - now injection H as <- <-.
  - destruct (isQuote c) eqn:Hc.
    + now injection H as <- <-.
    + destruct (spanNonQuote s) as [run' rest'].
      injection H as <- <-. simpl. rewrite Hc. simpl. now apply (IH run' rest').
Qed.

(** The text between the quotes is never empty and holds no quote. *)
Lemma quotedMatch_text (s text : ustring) :
  quotedMatch s = Some text ->
  text <> [] /\ forallb (fun c => negb (isQuote c)) text = true.
Proof.
  induction s as [|c s IH]; simpl; [discriminate|].
  destruct (isQuote c); [|exact IH].
  destruct (spanNonQuote s) as [run rest] eqn:E.
  destruct run as [|r0 run]; [exact IH|].
  destruct rest as [|q rest]; [exact IH|].
  intros H. injection H as <-. split; [discriminate|].
  now apply (spanNonQuote_fst _ E).
Qed.

(** The last line that mentions a key word for the improved text and
    holds a quoted text decides the improved text. *)
Lemma lineScan_quoted_improved (responseText : ustring)
    (before after : list ustring) (line text : ustring) :
  nonEmptyLines responseText = before ++ line :: after ->
  mentionsImprovedText line = true ->
  quotedMatch line = Some text ->
  forallb (fun l => negb (mentionsImprovedText l)) after = true ->
  improved_text (lineScan responseText) = text.
Proof.
  intros Hlines Hm Hq Hafter.
  rewrite (proj1 (lineScan_fields responseText)), Hlines.
  rewrite scanLines_app. simpl. rewrite Hm, Hq.
  rewrite scanLines_no_improved by assumption.
  apply quotedMatch_text in Hq as [Hne _].
  destruct text; [contradiction|reflexivity].
Qed.

(** Likewise for the purpose. *)
Lemma lineScan_quoted_purpose (responseText : ustring)
    (before after : list ustring) (line text : ustring) :
  nonEmptyLines responseText = before ++ line :: after ->
  mentionsPurpose line = true ->
  quotedMatch line = Some text ->
  forallb (fun l => negb (mentionsPurpose l)) after = true ->
  purpose (lineScan responseText) = text.
Proof.
  intros Hlines Hm Hq Hafter.
  rewrite (proj2 (lineScan_fields responseText)), Hlines.
  rewrite scanLines_app. simpl. rewrite Hm, Hq.
  now apply scanLines_no_purpose.
Qed.

(** Every line kept by [nonEmptyLines] is a trimmed line that is not
    empty. *)
Lemma nonEmptyLines_not_empty (responseText line : ustring) :
  In line (nonEmptyLines responseText) -> line <> [].
Proof.
  unfold nonEmptyLines. intros H. apply filter_In in H as [_ H].
  destruct line; [discriminate|discriminate].
Qed.

Lemma fromFirst_head (c : N) (s t : ustring) :
  fromFirst c s = Some t -> exists t', t = c :: t'.
Proof.
  induction s as [|x s IH]; simpl; [discriminate|].
  destruct (N.eqb_spec x c) as [->|Hne]; [|exact IH].
  intros H. injection H as <-. now exists s.
Qed.

Lemma matchBraces_head (responseText jsonStr : ustring) :
  matchBraces responseText = Some jsonStr -> exists body, jsonStr = 123%N :: body.
Proof.
  unfold matchBraces.
  destruct (fromFirst 123 responseText) as [[|open after]|] eqn:E; try discriminate.
  apply fromFirst_head in E as [t' E]. injection E as -> _.
  destruct (throughLast 125 after); [|discriminate].
  intros H. injection H as <-. eauto.
Qed.

(** A text that starts with an open brace parses to an object or not at
    all. *)
Lemma parse_brace_is_object (body : ustring) (parsed : value) :
  parse (123%N :: body) = Some parsed -> exists ms, parsed = JObject ms.
Proof.
  unfold parse, parseDocument, fuelFor.
  replace (2 * List.length (123%N :: body) + 2)%nat
    with (S (2 * List.length body + 3))%nat by (simpl; lia).
  cbn [parseValue skipWs isJsonSpace N.eqb Pos.eqb orb].
  destruct (skipWs body) as [|c' r']; [discriminate|].
  destruct (N.eqb c' 125).
  - destruct (skipWs r'); [|discriminate].
    intros H. injection H as <-. eauto.
  - destruct (parseMembers (2 * List.length body + 3) body) as [ms rest| |];
      try discriminate.
    destruct (skipWs rest); [|discriminate].
    intros H. injection H as <-. eauto.
Qed.

(** The parser of the first background script is a ladder with these
    rungs.  It takes the text from the first open brace to the
    last close brace of the response and parses it as JSON: when both
    fields are strings that are not empty, they are returned trimmed;
    when that text is not JSON, the raw response is returned with the
    default purpose, without a line scan.  When the response has no such
    text, or a field of the object is missing or falsy, the lines are
    scanned: without a line that mentions a key word for it, the purpose
    is the default one and the improved text is the first trimmed line
    that is not empty, or the raw response when there is no such line;
    with such lines, the quoted text of the last of them that has one is
    the improved text, and likewise for the purpose. *)
Theorem layered_parser_ladder (responseText : ustring) :
  (forall jsonStr parsed a b,
     matchBraces responseText = Some jsonStr ->
     parse jsonStr = Some parsed ->
     getField parsed (u "improved_text") = Some (JString a) -> a <> [] ->
     getField parsed (u "purpose") = Some (JString b) -> b <> [] ->
     parseOllamaResponse responseText =
     {| improved_text := trim a; purpose := trim b |}) /\
  (forall jsonStr,
     matchBraces responseText = Some jsonStr ->
     parse jsonStr = None ->
     parseOllamaResponse responseText =
     {| improved_text := responseText; purpose := defaultPurpose |}) /\
  (forall jsonStr parsed,
     matchBraces responseText = Some jsonStr ->
     parse jsonStr = Some parsed ->
     truthy (getField parsed (u "improved_text")) = false \/
     truthy (getField parsed (u "purpose")) = false ->
     parseOllamaResponse responseText = lineScan responseText) /\
  (matchBraces responseText = None ->
   parseOllamaResponse responseText = lineScan responseText) /\
  (forallb (fun line => negb (mentionsPurpose line)) (nonEmptyLines responseText) = true ->
   purpose (lineScan responseText) = defaultPurpose) /\
  (forallb (fun line => negb (mentionsImprovedText line)) (nonEmptyLines responseText) = true ->
   improved_text (lineScan responseText) =
   match nonEmptyLines responseText with
   | first :: _ => first
   | [] => responseText
   end) /\
  (forall before after line text,
     nonEmptyLines responseText = before ++ line :: after ->
     mentionsImprovedText line = true ->
     quotedMatch line = Some text ->
     forallb (fun l => negb (mentionsImprovedText l)) after = true ->
     improved_text (lineScan responseText) = text) /\
  (forall before after line text,
     nonEmptyLines responseText = before ++ line :: after ->
     mentionsPurpose line = true ->
     quotedMatch line = Some text ->
     forallb (fun l => negb (mentionsPurpose l)) after = true ->
     purpose (lineScan responseText) = text).
Proof.
  repeat split; [| | | | | |intros; eapply lineScan_quoted_improved; eauto
                |intros; eapply lineScan_quoted_purpose; eauto].
  - intros jsonStr parsed a b Hm Hp Ha Hane Hb Hbne.
    unfold parseOllamaResponse, tryParse. rewrite Hm, Hp.
    unfold readField.
    destruct parsed; try (simpl in Ha; discriminate Ha).
    cbn [bind]. rewrite Ha, Hb.
    destruct a; try contradiction; destruct b; try contradiction; reflexivity.
  - intros jsonStr Hm Hp. unfold parseOllamaResponse, tryParse.
    now rewrite Hm, Hp.
  - intros jsonStr parsed Hm Hp Hfalsy.
    unfold parseOllamaResponse, tryParse. rewrite Hm, Hp.
    destruct (matchBraces_head _ Hm) as [body ->].
    destruct (parse_brace_is_object _ Hp) as [ms ->].
    simpl in *.
    destruct (truthy (lookup (u "improved_text") ms)) eqn:E1; simpl;
      [|reflexivity].
    destruct Hfalsy as [H|H]; [discriminate|]. now rewrite H.
  - intros Hm. unfold parseOllamaResponse, tryParse. now rewrite Hm.
  - intros H. rewrite (proj2 (lineScan_fields responseText)).
    now apply scanLines_no_purpose.
  - intros H. rewrite (proj1 (lineScan_fields responseText)).
    rewrite scanLines_no_improved by assumption.
    destruct (nonEmptyLines responseText) as [|first rest] eqn:E.
    + reflexivity.
    + assert (Hne : first <> []).
      { apply (@nonEmptyLines_not_empty responseText). rewrite E. now left. }
      destruct first; [contradiction|reflexivity].
Qed.

End LayeredParserFacts.

Import Json LayeredParser.

(** C1, on the later background script, whose [parseOllamaResponse] is
    a bare [JSON.parse] although its doc comment announces fallback
    strategies.  A response that is not JSON makes [improveText] throw
    and [handleImproveText] answer with a failure that carries one of
    the fixed sentences: nothing of the response comes back as the
    improved text.  The first background script answers the same
    response with a success: the line scan when the response has no
    braces, the raw text when the text between the first open brace and
    the last close brace does not parse, for which it does not scan the
    lines.  In its line scan the quoted text of the last line that
    mentions a key word of a field is that field. *)
Theorem unparseable_response_fails_in_later_script
    (engineMessage : Js.engineFault -> ustring) (promptHead promptTail : ustring)
    (reads : Background.Reads) (text : ustring) (short : bool) (response : ustring) :
  parse (trim response) = None ->
  (exists sentence,
     In sentence Background.friendlyMessages /\
     snd (Background.improveText engineMessage promptHead promptTail reads text short
            (Background.Body response)) = Js.Throw (Js.ErrorObject sentence) /\
     Background.handleImproveText engineMessage promptHead promptTail reads text short
       (Background.Body response) =
     {| Background.result := None; Background.purpose := None;
        Background.isSuccess := Some (JBool false);
        Background.error := Some sentence |}) /\
  EarlyBackground.handleImproveText engineMessage (Background.Body response) =
    {| EarlyBackground.success := true;
       EarlyBackground.result :=
         Some (improved_text (parseOllamaResponse (trim response)));
       EarlyBackground.purpose := Some (purpose (parseOllamaResponse (trim response)));
       EarlyBackground.error := None |} /\
  (matchBraces (trim response) = None ->
   parseOllamaResponse (trim response) = lineScan (trim response)) /\
  (forall jsonStr,
     matchBraces (trim response) = Some jsonStr ->
     parse jsonStr = None ->
     parseOllamaResponse (trim response) =
     {| improved_text := trim response; purpose := defaultPurpose |}) /\
  (matchBraces (trim response) = None ->
   forall before after line quoted,
     nonEmptyLines (trim response) = before ++ line :: after ->
     quotedMatch line = Some quoted ->
     (mentionsImprovedText line = true ->
      forallb (fun l => negb (mentionsImprovedText l)) after = true ->
      improved_text (parseOllamaResponse (trim response)) = quoted) /\
     (mentionsPurpose line = true ->
      forallb (fun l => negb (mentionsPurpose l)) after = true ->
      purpose (parseOllamaResponse (trim response)) = quoted)).
Proof.
  intros Hparse.
  assert (Hscan : matchBraces (trim response) = None ->
                  parseOllamaResponse (trim response) = lineScan (trim response)).
  { intros Hm. unfold parseOllamaResponse, tryParse. now rewrite Hm. }
  split; [|split; [reflexivity | split; [exact Hscan | split]]];
    [| |intros Hm before after line quoted Hlines Hq; rewrite (Hscan Hm); split;
        [intros Hi Ha; eapply lineScan_quoted_improved; eauto
        |intros Hi Ha; eapply lineScan_quoted_purpose; eauto]].
  - exists (Background.friendlyMessageOf
              (engineMessage (Js.JsonSyntax (trim response)))).
    split; [apply friendlyMessageOf_fixed|].
    unfold Background.handleImproveText, Background.improveText,
      Background.improveTextBody, Background.parseOllamaResponse.
    cbn [snd]. rewrite Hparse. split; reflexivity.
  - intros jsonStr Hm Hp. unfold parseOllamaResponse, tryParse. now rewrite Hm, Hp.
Qed.

(** The theorem at work.  The model answers with the plain sentence
    [Hello world]: the later script reports a failure, the first script
    returns the sentence.  It answers with two lines that name the
    fields: the later script fails, the first script extracts both
    quoted texts.  It answers with an object whose key is not quoted:
    both scripts leave the quoted text alone, the later one fails and
    the first one returns the raw response, although its line scan
    finds the text. *)
Lemma unparseable_response_witness :
  Background.result
    (Background.handleImproveText Scenarios.noMessage [] [] Scenarios.reads0
       (u "helo wrld") true (Background.Body (u "Hello world"))) = None /\
  Background.isSuccess
    (Background.handleImproveText Scenarios.noMessage [] [] Scenarios.reads0
       (u "helo wrld") true (Background.Body (u "Hello world"))) = Some (JBool false) /\
  EarlyBackground.handleImproveText Scenarios.noMessage
    (Background.Body (u "Hello world")) =
  {| EarlyBackground.success := true;
     EarlyBackground.result := Some (u "Hello world");
     EarlyBackground.purpose := Some defaultPurpose;
     EarlyBackground.error := None |} /\
  Background.isSuccess
    (Background.handleImproveText Scenarios.noMessage [] [] Scenarios.reads0
       (u "helo wrld") true
       (Background.Body (jq "improved_text: 'Hi there'" ++ [newline]
                         ++ jq "purpose: 'Fixed typo'"))) = Some (JBool false) /\
  EarlyBackground.handleImproveText Scenarios.noMessage
    (Background.Body (jq "improved_text: 'Hi there'" ++ [newline]
                      ++ jq "purpose: 'Fixed typo'")) =
  {| EarlyBackground.success := true;
     EarlyBackground.result := Some (u "Hi there");
     EarlyBackground.purpose := Some (u "Fixed typo");
     EarlyBackground.error := None |} /\
  EarlyBackground.handleImproveText Scenarios.noMessage
    (Background.Body (jq "{improved_text: 'Hi there'}")) =
  {| EarlyBackground.success := true;
     EarlyBackground.result := Some (jq "{improved_text: 'Hi there'}");
     EarlyBackground.purpose := Some defaultPurpose;
     EarlyBackground.error := None |} /\
  improved_text (lineScan (jq "{improved_text: 'Hi there'}")) = u "Hi there".
Proof.
  destruct (@unparseable_response_fails_in_later_script Scenarios.noMessage [] []
              Scenarios.reads0 (u "helo wrld") true (u "Hello world") eq_refl)
    as [[sentence [_ [_ H1]]] [H2 _]].
  rewrite H1. clear H1.
  destruct (@unparseable_response_fails_in_later_script Scenarios.noMessage [] []
              Scenarios.reads0 (u "helo wrld") true
              (jq "improved_text: 'Hi there'" ++ [newline] ++ jq "purpose: 'Fixed typo'")
              eq_refl)
    as [[sentence' [_ [_ H3]]] [H4 _]].
  destruct (@unparseable_response_fails_in_later_script Scenarios.noMessage [] []
              Scenarios.reads0 (u "helo wrld") true (jq "{improved_text: 'Hi there'}")
              eq_refl)
    as [_ [H5 _]].
  rewrite H2, H3, H4, H5.
  split; [reflexivity|].
  split; [reflexivity|].
  split; [vm_compute; reflexivity|].
  split; [reflexivity|].
  split; [vm_compute; reflexivity|].
  split; vm_compute; reflexivity.
Defined.

(** ** The round trip of the response contract *)

Lemma parseChars_plain (X rest : ustring) :
  forallb isPlainChar X = true ->
  parseChars (X ++ 34%N :: rest) = Some (X, rest).
Proof.
  induction X as [|c X IH]; intros H.
  - reflexivity.
  - simpl in H. apply andb_true_iff in H as [Hc HX].
    unfold isPlainChar in Hc.
    apply andb_true_iff in Hc as [Hc Hctl]. apply andb_true_iff in Hc as [Hq Hb].
    apply negb_true_iff in Hq, Hb, Hctl.
    cbn [app parseChars]. rewrite Hq, Hb, Hctl, (IH HX). reflexivity.
Qed.

Lemma trimStart_head (c : N) (s : ustring) :
  isWhiteSpace c = false -> trimStart (c :: s) = c :: s.
Proof. intros H. simpl. now rewrite H. Qed.

Lemma trim_between (c d : N) (s : ustring) :
  isWhiteSpace c = false -> isWhiteSpace d = false ->
  trim (c :: s ++ [d]) = c :: s ++ [d].
Proof.
  intros Hc Hd. unfold trim, trimEnd.
  rewrite trimStart_head by assumption.
  change (c :: s ++ [d]) with ((c :: s) ++ [d]).
  rewrite rev_app_distr. cbn [rev app].
  rewrite trimStart_head by assumption.
  cbn [rev]. now rewrite rev_app_distr, rev_involutive.
Qed.

Lemma contractJson_trimmed (X Y : ustring) :
  trim (contractJson X Y) = contractJson X Y.
Proof.
  assert (E : contractJson X Y =
              123%N :: (skipn 1 (jq "{'improved_text':'") ++ X ++ jq "','purpose':'"
                        ++ Y ++ jq "','isSuccess':true") ++ [125%N]).
  { unfold contractJson. rewrite <- !app_assoc. reflexivity. }
  rewrite E. now apply trim_between.
Qed.

Lemma contractJson_shape (X Y : ustring) :
  contractJson X Y =
  123%N :: 34%N :: u "improved_text" ++ 34%N :: 58%N :: 34%N :: X ++
  34%N :: 44%N :: 34%N :: u "purpose" ++ 34%N :: 58%N :: 34%N :: Y ++
  34%N :: 44%N :: 34%N :: u "isSuccess" ++ 34%N :: 58%N ::
  116%N :: 114%N :: 117%N :: 101%N :: [125%N].
Proof. reflexivity. Qed.

(** The object of the contract parses to its three members. *)
Lemma parse_contractJson (X Y : ustring) :
  forallb isPlainChar X = true ->
  forallb isPlainChar Y = true ->
  parse (contractJson X Y) =
  Some (JObject [(u "improved_text", JString X); (u "purpose", JString Y);
                 (u "isSuccess", JBool true)]).
Proof.
  intros HX HY. unfold parse, parseDocument.
  assert (Hfuel : exists k, fuelFor (contractJson X Y) = (10 + k)%nat).
  { exists (2 * List.length (contractJson X Y) - 8)%nat.
    unfold fuelFor, contractJson. rewrite !length_app. simpl. lia. }
  destruct Hfuel as [k ->].
  rewrite contractJson_shape.
  cbn [Nat.add parseValue parseMembers skipWs isJsonSpace N.eqb Pos.eqb orb].
  rewrite (parseChars_plain (u "improved_text")) by reflexivity.
  cbn [parseValue parseMembers skipWs isJsonSpace N.eqb Pos.eqb orb].
  rewrite (parseChars_plain X) by assumption.
  cbn [parseValue parseMembers skipWs isJsonSpace N.eqb Pos.eqb orb].
  rewrite (parseChars_plain (u "purpose")) by reflexivity.
  cbn [parseValue parseMembers skipWs isJsonSpace N.eqb Pos.eqb orb].
  rewrite (parseChars_plain Y) by assumption.
  cbn [parseValue parseMembers skipWs isJsonSpace N.eqb Pos.eqb orb].
  rewrite (parseChars_plain (u "isSuccess")) by reflexivity.
  cbn [parseValue parseMembers skipWs isJsonSpace N.eqb Pos.eqb orb].
  reflexivity.
Qed.

(** C5, as the specification states it, fails when a text has white
    space at an end: for the improved text [ a], with a leading space,
    [improveText] returns [a]. *)
Lemma round_trip_trims_the_texts :
  snd (Background.improveText Scenarios.noMessage [] []
         Scenarios.reads0 (u "x") true
         (Background.Body (contractJson (u " a") (u "b")))) =
  Js.Ok {| Background.result := Some (u "a");
           Background.purpose := Some (u "b");
           Background.isSuccess := Some (JBool true);
           Background.error := None |} /\
  eqb (u "a") (u " a") = false.
Proof. vm_compute. split; reflexivity. Qed.

(** Every way of writing a string that the grammar allows is read back
    as that string. *)
Lemma parseChars_written (ws : list Written) (X rest : ustring) :
  readWritten ws = Some X ->
  parseChars (spell ws ++ 34%N :: rest) = Some (X, rest).
Proof.
  revert X. induction ws as [|w ws IH]; intros X H.
  - injection H as <-. reflexivity.
  - cbn [readWritten] in H.
    destruct (writtenChar w) as [c|] eqn:Hw; [|discriminate].
    destruct (readWritten ws) as [X'|] eqn:Hws; [|discriminate].
    injection H as <-. specialize (IH X' eq_refl).
    unfold spell in *. cbn [map List.concat]. rewrite <- app_assoc.
    destruct w as [c0|letter|h1 h2 h3 h4]; cbn [writtenText app writtenChar] in *.
    + destruct (isPlainChar c0) eqn:Hp; [|discriminate]. injection Hw as <-.
      unfold isPlainChar in Hp.
      apply andb_true_iff in Hp as [Hp Hctl]. apply andb_true_iff in Hp as [Hq Hb].
      apply negb_true_iff in Hq, Hb, Hctl.
      cbn [parseChars]. rewrite Hq, Hb, Hctl, IH. reflexivity.
    + destruct (N.eqb letter 117) eqn:Hu; [discriminate|].
      cbn [parseChars N.eqb Pos.eqb]. rewrite Hu, Hw, IH. reflexivity.
    + cbn [parseChars N.eqb Pos.eqb]. rewrite Hw, IH. reflexivity.
Qed.

(** Every string can be written. *)
Lemma escapeChar_read (c : N) : writtenChar (escapeChar c) = Some c.
Proof.
  unfold escapeChar.
  destruct (N.eqb_spec c 34) as [->|H34]; [reflexivity|].
  destruct (N.eqb_spec c 92) as [->|H92]; [reflexivity|].
  destruct (N.eqb_spec c 8) as [->|H8]; [reflexivity|].
  destruct (N.eqb_spec c 12) as [->|H12]; [reflexivity|].
  destruct (N.eqb_spec c 10) as [->|H10]; [reflexivity|].
  destruct (N.eqb_spec c 13) as [->|H13]; [reflexivity|].
  destruct (N.eqb_spec c 9) as [->|H9]; [reflexivity|].
  destruct (N.ltb_spec c 32) as [Hlt|Hge].
  - assert (Hc : (c = 0 \/ c = 1 \/ c = 2 \/ c = 3 \/ c = 4 \/ c = 5 \/ c = 6
                  \/ c = 7 \/ c = 8 \/ c = 9 \/ c = 10 \/ c = 11 \/ c = 12
                  \/ c = 13 \/ c = 14 \/ c = 15 \/ c = 16 \/ c = 17 \/ c = 18
                  \/ c = 19 \/ c = 20 \/ c = 21 \/ c = 22 \/ c = 23 \/ c = 24
                  \/ c = 25 \/ c = 26 \/ c = 27 \/ c = 28 \/ c = 29 \/ c = 30
                  \/ c = 31)%N) by lia.
    repeat (destruct Hc as [->|Hc]; [reflexivity|]). subst c. reflexivity.
  - unfold writtenChar, isPlainChar.
    apply N.eqb_neq in H34, H92. rewrite H34, H92.
    apply N.ltb_ge in Hge. now rewrite Hge.
Qed.

Lemma escapeString_read (X : ustring) :
  readWritten (map escapeChar X) = Some X.
Proof.
  induction X as [|c X IH]; [reflexivity|].
  cbn [map readWritten]. now rewrite escapeChar_read, IH.
Qed.

(** The object of the contract parses to its three members, however the
    two texts are written. *)
Lemma parse_contractJson_written (wx wy : list Written) (X Y : ustring) :
  readWritten wx = Some X ->
  readWritten wy = Some Y ->
  parse (contractJson (spell wx) (spell wy)) =
  Some (JObject [(u "improved_text", JString X); (u "purpose", JString Y);
                 (u "isSuccess", JBool true)]).
Proof.
  intros HX HY. unfold parse, parseDocument.
  assert (Hfuel : exists k,
             fuelFor (contractJson (spell wx) (spell wy)) = (10 + k)%nat).
  { exists (2 * List.length (contractJson (spell wx) (spell wy)) - 8)%nat.
    unfold fuelFor, contractJson. rewrite !length_app. simpl. lia. }
  destruct Hfuel as [k ->].
  rewrite contractJson_shape.
  cbn [Nat.add parseValue parseMembers skipWs isJsonSpace N.eqb Pos.eqb orb].
  rewrite (parseChars_plain (u "improved_text")) by reflexivity.
  cbn [parseValue parseMembers skipWs isJsonSpace N.eqb Pos.eqb orb].
  rewrite (parseChars_written wx _ HX).
  cbn [parseValue parseMembers skipWs isJsonSpace N.eqb Pos.eqb orb].
  rewrite (parseChars_plain (u "purpose")) by reflexivity.
  cbn [parseValue parseMembers skipWs isJsonSpace N.eqb Pos.eqb orb].
  rewrite (parseChars_written wy _ HY).
  cbn [parseValue parseMembers skipWs isJsonSpace N.eqb Pos.eqb orb].
  rewrite (parseChars_plain (u "isSuccess")) by reflexivity.
  cbn [parseValue parseMembers skipWs isJsonSpace N.eqb Pos.eqb orb].
  reflexivity.
Qed.

(** C5, amended.  For every improved text X and every purpose Y: when
    the response of the model is the object of the contract with X and
    Y written as JSON strings, [improveText] returns the trimmed X as
    the improved text, the trimmed Y as the purpose, success [true] and
    no error, and [handleImproveText] sends exactly that to the content
    script.  This holds for the texts written with the usual escapes
    (quote, backslash and control characters escaped, everything else as
    it is) and for every other way of writing them that the grammar
    allows. *)
Theorem improve_round_trip_trimmed (engineMessage : Js.engineFault -> ustring)
    (promptHead promptTail : ustring) (reads : Background.Reads)
    (text : ustring) (short : bool) (X Y : ustring) :
  snd (Background.improveText engineMessage promptHead promptTail reads text short
         (Background.Body (contractJson (escapeString X) (escapeString Y)))) =
  Js.Ok {| Background.result := Some (trim X);
           Background.purpose := Some (trim Y);
           Background.isSuccess := Some (JBool true);
           Background.error := None |} /\
  Background.handleImproveText engineMessage promptHead promptTail reads text short
    (Background.Body (contractJson (escapeString X) (escapeString Y))) =
  {| Background.result := Some (trim X);
     Background.purpose := Some (trim Y);
     Background.isSuccess := Some (JBool true);
     Background.error := None |} /\
  (forall wx wy : list Written,
     readWritten wx = Some X ->
     readWritten wy = Some Y ->
     snd (Background.improveText engineMessage promptHead promptTail reads text short
            (Background.Body (contractJson (spell wx) (spell wy)))) =
     Js.Ok {| Background.result := Some (trim X);
              Background.purpose := Some (trim Y);
              Background.isSuccess := Some (JBool true);
              Background.error := None |} /\
     Background.handleImproveText engineMessage promptHead promptTail reads text short
       (Background.Body (contractJson (spell wx) (spell wy))) =
     {| Background.result := Some (trim X);
        Background.purpose := Some (trim Y);
        Background.isSuccess := Some (JBool true);
        Background.error := None |}).
Proof.
  assert (General : forall wx wy : list Written,
            readWritten wx = Some X ->
            readWritten wy = Some Y ->
            snd (Background.improveText engineMessage promptHead promptTail reads
                   text short
                   (Background.Body (contractJson (spell wx) (spell wy)))) =
            Js.Ok {| Background.result := Some (trim X);
                     Background.purpose := Some (trim Y);
                     Background.isSuccess := Some (JBool true);
                     Background.error := None |} /\
            Background.handleImproveText engineMessage promptHead promptTail reads
              text short (Background.Body (contractJson (spell wx) (spell wy))) =
            {| Background.result := Some (trim X);
               Background.purpose := Some (trim Y);
               Background.isSuccess := Some (JBool true);
               Background.error := None |}).
  { intros wx wy HX HY.
    assert (H : Background.improveTextBody
                  (Background.Body (contractJson (spell wx) (spell wy))) =
                Js.Ok {| Background.result := Some (trim X);
                         Background.purpose := Some (trim Y);
                         Background.isSuccess := Some (JBool true);
                         Background.error := None |}).
    { unfold Background.improveTextBody, Background.parseOllamaResponse.
      rewrite contractJson_trimmed, (parse_contractJson_written wx wy HX HY).
      reflexivity. }
    unfold Background.handleImproveText, Background.improveText.
    cbn [snd]. rewrite H. split; reflexivity. }
  destruct (General (map escapeChar X) (map escapeChar Y)
              (escapeString_read X) (escapeString_read Y)) as [H1 H2].
  split; [exact H1|]. split; [exact H2 | exact General].
Qed.

(** The reply of the first scenario of the specification, and a reply
    whose improved text holds quotes and ends with a line feed: the
    quotes come back, the line feed is trimmed. *)
Lemma improve_round_trip_witness :
  snd (Background.improveText Scenarios.noMessage [] []
         Scenarios.reads0 (u "helo wrld") true
         (Background.Body (contractJson (u "Hello world") (u "Fixed spelling")))) =
  Js.Ok {| Background.result := Some (u "Hello world");
           Background.purpose := Some (u "Fixed spelling");
           Background.isSuccess := Some (JBool true);
           Background.error := None |} /\
  snd (Background.improveText Scenarios.noMessage [] []
         Scenarios.reads0 (u "helo wrld") true
         (Background.Body
            (contractJson (escapeString (jq "Say 'hi'" ++ [newline]))
               (escapeString (u "Fixed spelling"))))) =
  Js.Ok {| Background.result := Some (jq "Say 'hi'");
           Background.purpose := Some (u "Fixed spelling");
           Background.isSuccess := Some (JBool true);
           Background.error := None |} /\
  escapeString (jq "Say 'hi'" ++ [newline]) =
  u "Say " ++ [92%N; dquote] ++ u "hi" ++ [92%N; dquote; 92%N; 110%N].
Proof.
  split; [|split; [|reflexivity]].
  - exact (proj1 (@improve_round_trip_trimmed Scenarios.noMessage [] []
                    Scenarios.reads0 (u "helo wrld") true
                    (u "Hello world") (u "Fixed spelling"))).
  - exact (proj1 (@improve_round_trip_trimmed Scenarios.noMessage [] []
                    Scenarios.reads0 (u "helo wrld") true
                    (jq "Say 'hi'" ++ [newline]) (u "Fixed spelling"))).
Defined.

(** ** Further instances *)

(** With nothing stored and both default models listed, the text of the
    first scenario has two words: the message sent for it says short,
    and the request names the fast model with its options.  A text of
    twenty-one words is sent to the quality model. *)
Lemma length_class_witness :
  sent (fst (improveTextStart (u "helo wrld") (showPanel ContentTs page0))) =
  [ImproveTextMessage (u "helo wrld") true] /\
  fst (Background.improveText noMessage [] [] reads0 (u "helo wrld")
         (isShort (u "helo wrld")) failedToFetch) =
  {| Background.model := u "llama3.2:3b"; Background.prompt := u "helo wrld";
     Background.stream := false;
     Background.options_temperature := (3 # 10)%Q;
     Background.options_top_p := (9 # 10)%Q |} /\
  Background.model
    (fst (Background.improveText noMessage [] [] reads0
            (u "a b c d e f g h i j k l m n o p q r s t u")
            (isShort (u "a b c d e f g h i j k l m n o p q r s t u")) failedToFetch))
  = u "qwen2.5:7b-instruct".
Proof.
  pose proof (@length_class_selects_model noMessage [] [] reads0 (u "helo wrld")
                failedToFetch (showPanel ContentTs page0)) as H.
  pose proof (@length_class_selects_model noMessage [] [] reads0
                (u "a b c d e f g h i j k l m n o p q r s t u")
                failedToFetch (showPanel ContentTs page0)) as H'.
  cbv zeta in H, H'.
  destruct H as [_ [Hshort [Hsent [Hfast [_ [Hprompt Hstream]]]]]].
  destruct H' as [_ [_ [_ [_ [Hquality _]]]]].
  assert (Hs : isShort (u "helo wrld") = true) by (apply Hshort; vm_compute; lia).
  destruct Hfast as [Hm [Ht Hp]]; [vm_compute; lia|].
  destruct Hquality as [Hm' _]; [vm_compute; lia|].
  split; [rewrite Hsent by reflexivity; rewrite Hs; reflexivity|].
  split; [|rewrite Hm'; reflexivity].
  destruct (fst (Background.improveText noMessage [] [] reads0 (u "helo wrld")
                   (isShort (u "helo wrld")) failedToFetch))
    as [model prompt stream temperature top_p].
  cbn [Background.model Background.prompt Background.stream
       Background.options_temperature Background.options_top_p] in *.
  rewrite Hm, Ht, Hp, Hprompt, Hstream. reflexivity.
Defined.

(** A selection of two characters dispatches nothing; one of three
    characters dispatches the request. *)
Lemma short_selection_witness :
  handlePingClick 0
    {| PingIcon.value := u "helo wrld"; selectionStart := Some 0%nat; selectionEnd := Some 2%nat |}
  = None /\
  handleEditorPingIconClick (Editor 1) (Selection 1 true (u "te")) [] = None /\
  handlePingClick 0
    {| PingIcon.value := u "helo wrld"; selectionStart := Some 0%nat; selectionEnd := Some 3%nat |}
  = Some (TextImprovementRequest (u "hel") 0).
Proof.
  destruct (short_selection_dispatches_nothing 0
              {| PingIcon.value := u "helo wrld"; selectionStart := Some 0%nat;
                 selectionEnd := Some 2%nat |}
              (Editor 1) (Selection 1 true (u "te")) []) as [[_ H1] [[_ H2] _]].
  destruct (short_selection_dispatches_nothing 0
              {| PingIcon.value := u "helo wrld"; selectionStart := Some 0%nat;
                 selectionEnd := Some 3%nat |}
              (Editor 1) NoSelection []) as [_ [_ [H3 _]]].
  split; [apply H1; vm_compute; lia|].
  split; [apply H2; vm_compute; lia|].
  rewrite H3 by (vm_compute; lia). reflexivity.
Defined.

(** ** What is displayed, applied and copied *)

Import Markup.

Lemma trimStart_length (s : ustring) :
  (List.length (trimStart s) <= List.length s)%nat.
Proof.
  induction s as [|c s IH]; simpl; [lia|].
  destruct (isWhiteSpace c); simpl; lia.
Qed.




















Section DisplayedText.

Variable toLowerCase : ustring -> ustring.


End DisplayedText.




Section ShownSuggestion.

Variable script : Script.
Variable kindOf : nat -> FieldKind.
Variable toLowerCase : ustring -> ustring.


End ShownSuggestion.


(** ** What the highlighter marks *)

Section HighlighterFacts.

Variable toLowerCase : ustring -> ustring.

(** Once the word of the original under the cursor matches none of the
    words that follow in the improved text, all of them are wrapped. *)
Lemma highlightMarks_stuck (d : ustring) (rest improvedWords : list ustring) :
  forallb (fun w => negb (eqb (toLowerCase d) (toLowerCase w))) improvedWords = true ->
  highlightMarks toLowerCase (d :: rest) improvedWords = map Changed improvedWords.
Proof.
  induction improvedWords as [|w ws IH]; intros H; simpl in *; [reflexivity|].
  apply andb_true_iff in H. destruct H as [Hw Hws].
  apply negb_true_iff in Hw. rewrite Hw. now rewrite IH.
Qed.

Lemma highlightMarks_exhausted (improvedWords : list ustring) :
  highlightMarks toLowerCase [] improvedWords = map Changed improvedWords.
Proof.
  induction improvedWords as [|w ws IH]; simpl; [reflexivity | now rewrite IH].
Qed.

Lemma highlightMarks_common_prefix (a originalRest improvedRest : list ustring) :
  highlightMarks toLowerCase (a ++ originalRest) (a ++ improvedRest) =
  map Plain a ++ highlightMarks toLowerCase originalRest improvedRest.
Proof.
  induction a as [|w a IH]; simpl; [reflexivity|].
  now rewrite eqb_refl, IH.
Qed.

(** X9.  Words put into a text are the ones highlighted: when the
    improved text is the original with a run of words inserted, none of
    which equals, in lower case, the original word that follows the
    insertion, the highlighter wraps exactly the inserted words and
    leaves every word of the original plain. *)
Theorem inserted_words_are_highlighted (original improved : ustring)
    (before inserted after : list ustring) :
  split space original = before ++ after ->
  split space improved = before ++ inserted ++ after ->
  forallb (fun w => match after with
                    | [] => true
                    | next :: _ => negb (eqb (toLowerCase next) (toLowerCase w))
                    end) inserted = true ->
  marksOf toLowerCase original improved =
  map Plain before ++ map Changed inserted ++ map Plain after.
Proof.
  intros Ho Hi Hins. unfold marksOf. rewrite Ho, Hi.
  rewrite highlightMarks_common_prefix. f_equal.
  destruct after as [|next after'].
  - rewrite !app_nil_r. apply highlightMarks_exhausted.
  - clear Ho Hi. induction inserted as [|w ws IH]; simpl in *.
    + rewrite eqb_refl. f_equal.
      apply (highlightMarks_same toLowerCase after').
    + apply andb_true_iff in Hins. destruct Hins as [Hw Hws].
      apply negb_true_iff in Hw. rewrite Hw. f_equal. now apply IH.
Qed.

(** X10.  A replaced word ends the alignment: when the original and the
    improved text share their first words and the next word of the
    original equals, in lower case, none of the remaining words of the
    improved text, every remaining word of the improved text is wrapped,
    the unchanged ones among them included. *)
Theorem words_after_a_replaced_word_are_all_highlighted (original improved : ustring)
    (common : list ustring) (replaced : ustring)
    (originalRest improvedRest : list ustring) :
  split space original = common ++ replaced :: originalRest ->
  split space improved = common ++ improvedRest ->
  forallb (fun w => negb (eqb (toLowerCase replaced) (toLowerCase w))) improvedRest
    = true ->
  marksOf toLowerCase original improved =
  map Plain common ++ map Changed improvedRest.
Proof.
  intros Ho Hi Hrest. unfold marksOf. rewrite Ho, Hi.
  rewrite highlightMarks_common_prefix. f_equal.
  now apply highlightMarks_stuck.
Qed.

End HighlighterFacts.

Lemma inserted_words_witness :
  marksOf asciiLower (u "the cat sat") (u "the big black cat sat") =
  [Plain (u "the"); Changed (u "big"); Changed (u "black");
   Plain (u "cat"); Plain (u "sat")].
Proof.
  apply (inserted_words_are_highlighted asciiLower (u "the cat sat")
           (u "the big black cat sat") [u "the"] [u "big"; u "black"]
           [u "cat"; u "sat"]); reflexivity.
Defined.

Lemma replaced_word_witness :
  marksOf asciiLower (u "teh cat sat") (u "The cat sat") =
  [Changed (u "The"); Changed (u "cat"); Changed (u "sat")].
Proof.
  apply (words_after_a_replaced_word_are_all_highlighted asciiLower (u "teh cat sat")
           (u "The cat sat") [] (u "teh") [u "cat"; u "sat"]
           [u "The"; u "cat"; u "sat"]); reflexivity.
Defined.

(** ** Stacking order *)

Lemma maxZIndexOf_bounds (chain : list Stacking.ComputedZIndex) (maxZIndex : Z) :
  (maxZIndex <= Stacking.maxZIndexOf chain maxZIndex)%Z /\
  forall z, In (Stacking.Index z) chain -> (z <= Stacking.maxZIndexOf chain maxZIndex)%Z.
Proof.
  revert maxZIndex. induction chain as [|current parents IH]; intros maxZIndex; simpl.
  - split; [lia | intros z []].
  - destruct current as [|z0]; simpl.
    + destruct (IH maxZIndex) as [H1 H2]. split; [exact H1|].
      intros z [Hz|Hz]; [discriminate | now apply H2].
    + destruct (Z.ltb_spec maxZIndex z0) as [Hlt|Hge].
      * destruct (IH z0) as [H1 H2]. split; [lia|].
        intros z [Hz|Hz]; [injection Hz as <-; exact H1 | now apply H2].
      * destruct (IH maxZIndex) as [H1 H2]. split; [exact H1|].
        intros z [Hz|Hz]; [injection Hz as <-; lia | now apply H2].
Qed.

(** The running maximum is zero or one of the values met. *)
Lemma maxZIndexOf_attained (chain : list Stacking.ComputedZIndex) (maxZIndex : Z) :
  Stacking.maxZIndexOf chain maxZIndex = maxZIndex \/
  In (Stacking.Index (Stacking.maxZIndexOf chain maxZIndex)) chain.
Proof.
  revert maxZIndex. induction chain as [|current parents IH]; intros maxZIndex; simpl.
  - now left.
  - destruct current as [|z0]; simpl.
    + destruct (IH maxZIndex) as [H|H]; [now left | now right; right].
    + destruct (Z.ltb_spec maxZIndex z0) as [Hlt|Hge].
      * destruct (IH z0) as [H|H]; [right; left; now rewrite H | now right; right].
      * destruct (IH maxZIndex) as [H|H]; [now left | now right; right].
Qed.

(** X1.  The [z-index] that [showPanel] writes for the panel is above
    the element the panel belongs to: it exceeds the computed [z-index]
    of the element and of every ancestor below the body by at least 15;
    it is 10005 when none of them is positive, and the greatest of them
    plus 15 otherwise. *)
Theorem panel_is_stacked_above_its_element (chain : list Stacking.ComputedZIndex) :
  (forall z, In (Stacking.Index z) chain -> (z + 15 <= Stacking.panelZIndex chain)%Z) /\
  ((forall z, In (Stacking.Index z) chain -> (z <= 0)%Z) ->
   Stacking.panelZIndex chain = 10005%Z) /\
  (forall z, In (Stacking.Index z) chain -> (0 < z)%Z ->
   exists top, In (Stacking.Index top) chain /\
               Stacking.panelZIndex chain = (top + 15)%Z).
Proof.
  unfold Stacking.panelZIndex, Stacking.getEffectiveZIndex.
  destruct (maxZIndexOf_bounds chain 0) as [H0 Hall].
  destruct (maxZIndexOf_attained chain 0) as [Hzero|Hin].
  - rewrite Hzero in *. simpl. split; [|split].
    + intros z Hz. specialize (Hall z Hz). lia.
    + reflexivity.
    + intros z Hz Hpos. specialize (Hall z Hz). lia.
  - destruct (Z.ltb_spec 0 (Stacking.maxZIndexOf chain 0)) as [Hpos|Hle].
    + split; [|split].
      * intros z Hz. specialize (Hall z Hz). lia.
      * intros Hnone. specialize (Hnone _ Hin). lia.
      * intros z Hz _. exists (Stacking.maxZIndexOf chain 0). split; [exact Hin | lia].
    + split; [|split].
      * intros z Hz. specialize (Hall z Hz). lia.
      * reflexivity.
      * intros z Hz Hzpos. specialize (Hall z Hz). lia.
Qed.

Lemma panel_is_stacked_witness :
  Stacking.panelZIndex [Stacking.Auto; Stacking.Index 100; Stacking.Index (-1); Stacking.Auto]
  = 115%Z /\
  Stacking.panelZIndex [Stacking.Auto; Stacking.Index 0] = 10005%Z.
Proof.
  split.
  - destruct (panel_is_stacked_above_its_element
                [Stacking.Auto; Stacking.Index 100; Stacking.Index (-1); Stacking.Auto])
      as [_ [_ H]].
    reflexivity.
  - apply (panel_is_stacked_above_its_element [Stacking.Auto; Stacking.Index 0]).
    intros z [H|[H|[]]]; [discriminate | injection H as <-; lia].
Defined.

(** ** The registry of ping icons *)

Section RegistryFacts.
Import Registry.

Variable toLowerCase : ustring -> ustring.

Lemma existsb_eqb_In (x : nat) (l : list nat) :
  existsb (Nat.eqb x) l = true <-> In x l.
Proof.
  rewrite existsb_exists. split.
  - intros [y [Hy Heq]]. apply Nat.eqb_eq in Heq. now subst.
  - intros H. exists x. split; [exact H | apply Nat.eqb_refl].
Qed.

(** What a step of the registry keeps: no element has two icons. *)
Lemma addPingIcon_NoDup (inputElement : nat) (pingIcons : list nat) :
  NoDup pingIcons -> NoDup (addPingIcon inputElement pingIcons).
Proof.
  intros H. unfold addPingIcon.
  destruct (existsb (Nat.eqb inputElement) pingIcons) eqn:E; [exact H|].
  apply NoDup_app; [exact H | constructor; [intros [] | constructor] |].
  intros x Hx [Heq|[]]. subst x.
  apply existsb_eqb_In in Hx. congruence.
Qed.

Lemma addEditorPingIcon_NoDup (document : Document) (editor : nat)
    (pingIcons : list nat) :
  NoDup pingIcons -> NoDup (addEditorPingIcon document editor pingIcons).
Proof.
  intros H. unfold addEditorPingIcon.
  destruct (existsb (Nat.eqb editor) pingIcons) eqn:E; [exact H|].
  destruct (hasContainer document editor); [|exact H].
  apply NoDup_app; [exact H | constructor; [intros [] | constructor] |].
  intros x Hx [Heq|[]]. subst x.
  apply existsb_eqb_In in Hx. congruence.
Qed.

Lemma forEach_invariant {A S : Type} (P : S -> Prop) (f : A -> S -> S) :
  (forall x s, P s -> P (f x s)) ->
  forall xs s, P s -> P (forEach f xs s).
Proof.
  intros Hf xs. unfold forEach.
  induction xs as [|x xs IH]; intros s Hs; simpl; [exact Hs|].
  apply IH, Hf, Hs.
Qed.

Lemma checkForInputFields_NoDup (document : Document) (element : nat)
    (pingIcons : list nat) :
  NoDup pingIcons ->
  NoDup (checkForInputFields toLowerCase document element pingIcons).
Proof.
  intros H. unfold checkForInputFields.
  apply forEach_invariant; [intros; now apply addEditorPingIcon_NoDup|].
  apply forEach_invariant; [intros; now apply addPingIcon_NoDup|].
  apply forEach_invariant; [intros; now apply addPingIcon_NoDup|].
  destruct (isInputField toLowerCase (kindOf document element));
    [now apply addPingIcon_NoDup | exact H].
Qed.

Lemma cleanupRemovedInputs_NoDup (document : Document) (removedElement : nat)
    (pingIcons : list nat) :
  NoDup pingIcons -> NoDup (cleanupRemovedInputs document removedElement pingIcons).
Proof. apply NoDup_filter. Qed.

(** X2.  One icon per element: from the construction of the manager on,
    whatever the documents and the mutation records that the observer is
    called with, no element has two icons in the registry. *)
Theorem registry_has_one_icon_per_element (document : Document)
    (callbacks : list (Document * list MutationRecord)) :
  NoDup (observed toLowerCase document callbacks).
Proof.
  unfold observed.
  apply forEach_invariant.
  - intros [doc mutations] icons Hicons. unfold observerCallback. simpl.
    apply forEach_invariant; [|exact Hicons].
    intros mutation icons' Hicons'.
    apply forEach_invariant; [intros; now apply cleanupRemovedInputs_NoDup|].
    apply forEach_invariant; [intros; now apply checkForInputFields_NoDup|].
    exact Hicons'.
  - unfold construct, setupPingIcons.
    apply forEach_invariant; [intros; now apply addPingIcon_NoDup | constructor].
Qed.

(** Adding icons only appends to the registry. *)
Lemma addPingIcon_extends (inputElement : nat) (pingIcons : list nat) :
  exists added, addPingIcon inputElement pingIcons = pingIcons ++ added.
Proof.
  unfold addPingIcon. destruct (existsb _ _).
  - exists []. now rewrite app_nil_r.
  - now exists [inputElement].
Qed.

Lemma addEditorPingIcon_extends (document : Document) (editor : nat)
    (pingIcons : list nat) :
  exists added, addEditorPingIcon document editor pingIcons = pingIcons ++ added.
Proof.
  unfold addEditorPingIcon. destruct (existsb _ _); [|destruct (hasContainer _ _)].
  - exists []. now rewrite app_nil_r.
  - now exists [editor].
  - exists []. now rewrite app_nil_r.
Qed.

Lemma forEach_extends {A : Type} (f : A -> list nat -> list nat) :
  (forall x s, exists added, f x s = s ++ added) ->
  forall xs s, exists added, forEach f xs s = s ++ added.
Proof.
  intros Hf xs. unfold forEach.
  induction xs as [|x xs IH]; intros s; simpl.
  - exists []. now rewrite app_nil_r.
  - destruct (Hf x s) as [a1 H1]. destruct (IH (f x s)) as [a2 H2].
    exists (a1 ++ a2). now rewrite H2, H1, app_assoc.
Qed.

Lemma addPingIcon_In (inputElement : nat) (pingIcons : list nat) :
  In inputElement (addPingIcon inputElement pingIcons).
Proof.
  unfold addPingIcon. destruct (existsb _ _) eqn:E.
  - now apply existsb_eqb_In.
  - apply in_or_app. right. now left.
Qed.

Lemma forEach_addPingIcon_In (inputs : list nat) (pingIcons : list nat) (i : nat) :
  In i inputs \/ In i pingIcons -> In i (forEach addPingIcon inputs pingIcons).
Proof.
  unfold forEach. revert pingIcons.
  induction inputs as [|x inputs IH]; intros pingIcons H; simpl.
  - destruct H as [[]|H]; exact H.
  - apply IH. destruct H as [[<-|H]|H].
    + right. apply addPingIcon_In.
    + now left.
    + right. destruct (addPingIcon_extends x pingIcons) as [added ->].
      apply in_or_app. now left.
Qed.

(** Icons that exist already make the loop over the fields do nothing. *)
Lemma forEach_addPingIcon_present (inputs : list nat) (pingIcons : list nat) :
  (forall i, In i inputs -> In i pingIcons) ->
  forEach addPingIcon inputs pingIcons = pingIcons.
Proof.
  unfold forEach.
  induction inputs as [|x inputs IH]; intros H; simpl; [reflexivity|].
  assert (Hx : addPingIcon x pingIcons = pingIcons).
  { unfold addPingIcon.
    destruct (existsb (Nat.eqb x) pingIcons) eqn:E; [reflexivity|].
    assert (In x pingIcons) by (apply H; now left).
    apply existsb_eqb_In in H0. congruence. }
  rewrite Hx. apply IH. intros i Hi. apply H. now right.
Qed.

Lemma forEach_addEditorPingIcon_stable (document : Document) (eds : list nat)
    (pingIcons : list nat) :
  (forall e, In e eds -> hasContainer document e = true -> In e pingIcons) ->
  forEach (addEditorPingIcon document) eds pingIcons = pingIcons.
Proof.
  unfold forEach.
  induction eds as [|x eds IH]; intros H; simpl; [reflexivity|].
  assert (Hx : addEditorPingIcon document x pingIcons = pingIcons).
  { unfold addEditorPingIcon.
    destruct (existsb (Nat.eqb x) pingIcons) eqn:E; [reflexivity|].
    destruct (hasContainer document x) eqn:C; [|reflexivity].
    assert (In x pingIcons) by (apply H; [now left | exact C]).
    apply existsb_eqb_In in H0. congruence. }
  rewrite Hx. apply IH. intros e He. apply H. now right.
Qed.

Lemma forEach_addEditorPingIcon_In (document : Document) (eds : list nat)
    (pingIcons : list nat) (e : nat) :
  (In e eds /\ hasContainer document e = true) \/ In e pingIcons ->
  In e (forEach (addEditorPingIcon document) eds pingIcons).
Proof.
  unfold forEach. revert pingIcons.
  induction eds as [|x eds IH]; intros pingIcons H; simpl.
  - destruct H as [[[] _]|H]; exact H.
  - apply IH. destruct H as [[[<-|H] C]|H].
    + right. unfold addEditorPingIcon.
      destruct (existsb (Nat.eqb x) pingIcons) eqn:E.
      * now apply existsb_eqb_In.
      * rewrite C. apply in_or_app. right. now left.
    + left. now split.
    + right. destruct (addEditorPingIcon_extends document x pingIcons) as [added ->].
      apply in_or_app. now left.
Qed.

(** X3.  A scan of an added node gives an icon to the node itself when
    it is an input field, to every field found below it and to every
    editor of the document that has its container; the icons that
    existed stay where they were, the new ones come after them; and a
    second scan of the same node in the same document changes nothing. *)
Theorem scan_gives_every_field_an_icon (document : Document) (element : nat)
    (pingIcons : list nat) :
  let scanned := checkForInputFields toLowerCase document element pingIcons in
  (exists added, scanned = pingIcons ++ added) /\
  (isInputField toLowerCase (kindOf document element) = true -> In element scanned) /\
  (forall input, In input (inputsUnder document element) -> In input scanned) /\
  (forall editor, In editor (editors document) ->
                  hasContainer document editor = true -> In editor scanned) /\
  checkForInputFields toLowerCase document element scanned = scanned.
Proof.
  set (first := if isInputField toLowerCase (kindOf document element)
                then addPingIcon element pingIcons else pingIcons).
  set (inputs := inputsUnder document element).
  set (icons2 := forEach addPingIcon inputs first).
  assert (H3 : forEach addPingIcon inputs icons2 = icons2).
  { apply forEach_addPingIcon_present. intros i Hi.
    apply forEach_addPingIcon_In. now left. }
  assert (Hscan : checkForInputFields toLowerCase document element pingIcons =
                  forEach (addEditorPingIcon document) (editors document) icons2).
  { unfold checkForInputFields. fold first. fold inputs. fold icons2. now rewrite H3. }
  cbv zeta. rewrite Hscan.
  set (scanned := forEach (addEditorPingIcon document) (editors document) icons2).
  assert (Hfirst : exists a, first = pingIcons ++ a).
  { unfold first. destruct (isInputField _ _).
    - apply addPingIcon_extends.
    - exists []. now rewrite app_nil_r. }
  assert (H2 : exists a, icons2 = first ++ a)
    by (apply forEach_extends, addPingIcon_extends).
  assert (Hs : exists a, scanned = icons2 ++ a)
    by (apply forEach_extends, addEditorPingIcon_extends).
  assert (Hkeep2 : forall x, In x icons2 -> In x scanned).
  { intros x Hx. destruct Hs as [a ->]. apply in_or_app. now left. }
  assert (Hkeep1 : forall x, In x first -> In x icons2).
  { intros x Hx. destruct H2 as [a ->]. apply in_or_app. now left. }
  assert (Helement : isInputField toLowerCase (kindOf document element) = true ->
                     In element scanned).
  { intros E. apply Hkeep2, Hkeep1. unfold first. rewrite E. apply addPingIcon_In. }
  assert (Hinputs : forall input, In input inputs -> In input scanned).
  { intros input Hi. apply Hkeep2. apply forEach_addPingIcon_In. now left. }
  assert (Heditors : forall editor, In editor (editors document) ->
                       hasContainer document editor = true -> In editor scanned).
  { intros editor He C. apply forEach_addEditorPingIcon_In. left. now split. }
  split; [|split; [exact Helement | split; [exact Hinputs | split; [exact Heditors|]]]].
  - destruct Hfirst as [a1 H1]. destruct H2 as [a2 H2]. destruct Hs as [a3 Hs].
    exists (a1 ++ a2 ++ a3). rewrite Hs, H2, H1. now rewrite !app_assoc.
  - unfold checkForInputFields. fold inputs.
    assert (Hone : (if isInputField toLowerCase (kindOf document element)
                    then addPingIcon element scanned else scanned) = scanned).
    { destruct (isInputField toLowerCase (kindOf document element)) eqn:E;
        [|reflexivity].
      unfold addPingIcon.
      destruct (existsb (Nat.eqb element) scanned) eqn:X; [reflexivity|].
      specialize (Helement eq_refl). apply existsb_eqb_In in Helement. congruence. }
    rewrite Hone.
    rewrite (forEach_addPingIcon_present inputs scanned Hinputs).
    rewrite (forEach_addPingIcon_present inputs scanned Hinputs).
    apply forEach_addEditorPingIcon_stable. intros e He C. now apply Heditors.
Qed.

End RegistryFacts.

(** ** When the icon is displayed *)





Lemma trim_length (s : ustring) :
  (List.length (trim s) <= List.length s)%nat.
Proof.
  unfold trim, trimEnd. rewrite length_rev.
  etransitivity; [apply trimStart_length|]. rewrite length_rev.
  apply trimStart_length.
Qed.

(** X5.  The icon of a rich-text editor remembers the selection it was
    displayed for: when [updateVisibility] displays the icon and the
    selection is gone by the time the icon is activated, the activation
    still dispatches a request for the editor.  [content.ts] sends the
    selected text as it was, the reworked script the trimmed text; the
    text has three characters or more. *)
Theorem editor_icon_click_uses_remembered_selection (script : Script)
    (displayed isContentEditable : bool) (selection atClick : WindowSelection)
    (isCollapsed anchorInside : bool) (lastSelectionText : ustring) (id : nat) :
  fst (IconVisibility.editorUpdateVisibility script false displayed isContentEditable
         selection isCollapsed anchorInside lastSelectionText) = true ->
  getSelectedTextFromProseMirror atClick = [] ->
  exists rangeCount inside text,
    selection = Selection rangeCount inside text /\
    (3 <= List.length (trim text))%nat /\
    handleEditorPingIconClick (Editor id) atClick
      (snd (IconVisibility.editorUpdateVisibility script false displayed
              isContentEditable selection isCollapsed anchorInside lastSelectionText))
    = Some (TextImprovementRequestForEditor
              match script with ContentTs => text | Reworked => trim text end id).
Proof.
  intros Hshown Hgone.
  unfold handleEditorPingIconClick, editorSelectedText. rewrite Hgone.
  unfold IconVisibility.editorUpdateVisibility in *.
  destruct script.
  - destruct selection as [|rangeCount inside text]; [discriminate|].
    destruct ((0 <? rangeCount)%nat && negb isCollapsed
              && (minSelectionLength <=? List.length (trim text))%nat && anchorInside)
      eqn:E; [|discriminate].
    apply andb_true_iff in E. destruct E as [E _].
    apply andb_true_iff in E. destruct E as [_ E].
    apply Nat.leb_le in E. unfold minSelectionLength in *.
    exists rangeCount, inside, text. split; [reflexivity|]. split; [exact E|].
    simpl. pose proof (trim_length text).
    destruct (Nat.ltb_spec (List.length text) 3); [lia | reflexivity].
  - unfold IconVisibility.getInputElementSelection in *.
    destruct isContentEditable;
      [|simpl in Hshown; discriminate].
    destruct selection as [|[|n] [|] text]; try (simpl in Hshown; discriminate).
    destruct isCollapsed; [simpl in Hshown; discriminate|].
    destruct (Nat.leb_spec minSelectionLength (List.length (trim text)));
      [|discriminate].
    unfold minSelectionLength in *.
    exists (S n), true, text. split; [reflexivity|]. split; [assumption|].
    simpl.
    destruct (Nat.ltb_spec (List.length (trim text)) 3); [lia | reflexivity].
Qed.

Lemma editor_icon_witness :
  handleEditorPingIconClick (Editor 1) NoSelection
    (snd (IconVisibility.editorUpdateVisibility ContentTs false false true
            (Selection 1 true (u " teh cat ")) false true []))
  = Some (TextImprovementRequestForEditor (u " teh cat ") 1) /\
  handleEditorPingIconClick (Editor 1) NoSelection
    (snd (IconVisibility.editorUpdateVisibility Reworked false false true
            (Selection 1 true (u " teh cat ")) false true []))
  = Some (TextImprovementRequestForEditor (u "teh cat") 1).
Proof.
  split.
  - destruct (editor_icon_click_uses_remembered_selection ContentTs false true
                (Selection 1 true (u " teh cat ")) NoSelection false true [] 1
                eq_refl eq_refl) as [rangeCount [inside [text [Hsel [_ H]]]]].
    injection Hsel as _ _ <-. exact H.
  - destruct (editor_icon_click_uses_remembered_selection Reworked false true
                (Selection 1 true (u " teh cat ")) NoSelection false true [] 1
                eq_refl eq_refl) as [rangeCount [inside [text [Hsel [_ H]]]]].
    injection Hsel as _ _ <-. exact H.
Defined.

(** ** The events of the panel manager *)

Section EventFacts.
Import EventLoop.

Variable kindOf : nat -> FieldKind.
Variable toLowerCase : ustring -> ustring.
Variable textContent : ustring -> ustring.
Variable engineMessage : Js.engineFault -> ustring.

Ltac break_page :=
  repeat match goal with
         | |- context [match ?x with _ => _ end] => destruct x eqn:?; simpl
         | |- context [if ?x then _ else _] => destruct x eqn:?; simpl
         end.

Lemma hidePanel_document (script : Script) (st : Page) :
  sameDocument st (hidePanel script st) /\ sent (hidePanel script st) = sent st.
Proof. unfold sameDocument, hidePanel. break_page; auto. Qed.

Lemma showSuggestion_document (script : Script) (suggestion : Js.outcome ustring)
    (purposeArg : option Json.value) (st : Page) :
  let st' := fst (showSuggestion script toLowerCase suggestion purposeArg st) in
  sameDocument st st' /\ sent st' = sent st /\ isProcessing st' = isProcessing st /\
  (panel st = None -> panel st' = None).
Proof.
  unfold sameDocument, showSuggestion. cbv zeta.
  destruct (panel st) eqn:E; [|simpl; rewrite E; auto].
  destruct suggestion; simpl; repeat split; auto; discriminate.
Qed.

Lemma showError_document (message : option ustring) (st : Page) :
  sameDocument st (showError message st) /\ sent (showError message st) = sent st /\
  isProcessing (showError message st) = isProcessing st /\
  (panel st = None -> panel (showError message st) = None).
Proof.
  unfold sameDocument, showError.
  destruct (panel st) eqn:E; simpl; repeat split; auto; discriminate.
Qed.

Lemma improveTextStart_document (text : ustring) (st : Page) :
  sameDocument st (fst (improveTextStart text st)).
Proof.
  unfold sameDocument, improveTextStart, showLoadingState. simpl.
  destruct (isProcessing st); simpl; [auto|].
  destruct (panel st); simpl; auto.
Qed.

Lemma improveTextResume_document (script : Script) (reply : SendReply) (st : Page) :
  let st' := improveTextResume script toLowerCase engineMessage reply st in
  sameDocument st st' /\ sent st' = sent st /\ isProcessing st' = false /\
  (panel st = None -> panel st' = None).
Proof.
  cbv zeta. unfold improveTextResume.
  destruct reply as [response|e].
  - destruct (truthy (Background.isSuccess response)).
    + pose proof (showSuggestion_document script
                    (asReceiver (stringField (Background.result response)))
                    (stringField (Background.purpose response)) st) as H.
      cbv zeta in H.
      destruct (showSuggestion script toLowerCase _ _ st) as [st1 raised].
      simpl in H. destruct H as [[Hf He] [Hs [_ Hp]]].
      destruct raised as [e|].
      * destruct (showError_document (Some (messageOf engineMessage e)) st1)
          as [[Hf' He'] [Hs' [_ Hp']]].
        unfold sameDocument. simpl. repeat split; try congruence.
        intros Hn. apply Hp', Hp, Hn.
      * unfold sameDocument. simpl. repeat split; auto.
    + destruct (showError_document (Background.error response) st)
        as [[Hf He] [Hs [_ Hp]]].
      unfold sameDocument. simpl. repeat split; auto.
  - destruct (showError_document (Some (messageOf engineMessage e)) st)
      as [[Hf He] [Hs [_ Hp]]].
    unfold sameDocument. simpl. repeat split; auto.
Qed.

Lemma improveTextAndHTMLStart_document (script : Script) (text : ustring)
    (inputElement : nat) (isProseMirror : bool) (st : Page) :
  sameDocument st
    (fst (improveTextAndHTMLStart script text inputElement isProseMirror st)).
Proof.
  unfold sameDocument, improveTextAndHTMLStart, showLoadingState.
  destruct (isProcessing st); simpl; [auto|].
  destruct (panel st); simpl; [|auto].
  destruct isProseMirror; simpl; [auto|]. destruct script; simpl; auto.
Qed.

(** The part of [improveTextAndHTML] after the reply that both scripts
    share. *)
Lemma improveTextAndHTMLResume_document (script : Script) (reply : SendReply)
    (st : Page) :
  let st' := improveTextAndHTMLResume script toLowerCase reply st in
  sameDocument st st' /\ sent st' = sent st /\
  (panel st = None -> panel st' = None) /\
  isProcessing st' = match script with
                     | ContentTs => isProcessing st
                     | Reworked => false
                     end.
Proof.
  cbv zeta. unfold improveTextAndHTMLResume.
  set (body := match reply with
               | Responded response => _
               | SendRejected e => _
               end).
  assert (Hbody : sameDocument st (fst body) /\ sent (fst body) = sent st /\
                  isProcessing (fst body) = isProcessing st /\
                  (panel st = None -> panel (fst body) = None)).
  { unfold body. destruct reply as [response|e];
      [|unfold sameDocument; simpl; auto].
    destruct (truthy (Background.isSuccess response));
      [|simpl; apply showError_document].
    destruct (Background.result response) as [text|];
      [|unfold sameDocument; simpl; auto].
    destruct (parse text) as [data|]; [|unfold sameDocument; simpl; auto].
    assert (Hshow :
      let r := showSuggestion script toLowerCase
                 (asReceiver (getField data (u "improved_text")))
                 (getField data (u "purpose"))
                 (setChanging (getField data (u "markdown_content")) st) in
      sameDocument st (fst r) /\ sent (fst r) = sent st /\
      isProcessing (fst r) = isProcessing st /\
      (panel st = None -> panel (fst r) = None)).
    { cbv zeta.
      pose proof (showSuggestion_document script
                    (asReceiver (getField data (u "improved_text")))
                    (getField data (u "purpose"))
                    (setChanging (getField data (u "markdown_content")) st)) as H.
      cbv zeta in H. unfold sameDocument in *. simpl in H. exact H. }
    destruct data; try exact Hshow; unfold sameDocument; simpl; auto. }
  destruct body as [st1 raised]. simpl in Hbody.
  destruct Hbody as [[Hf He] [Hs [Hi Hp]]].
  destruct script.
  - unfold sameDocument. auto.
  - destruct raised as [e|].
    + destruct (showError_document
                  (Some (u "An unexpected error occurred while improving text.")) st1)
        as [[Hf' He'] [Hs' [_ Hp']]].
      unfold sameDocument. simpl. repeat split; try congruence.
      intros Hn. apply Hp', Hp, Hn.
    + unfold sameDocument. simpl. auto.
Qed.

Lemma setCurrent_document (text : ustring) (id : nat) (st : Page) :
  sameDocument st (setCurrent text id st).
Proof. unfold sameDocument. auto. Qed.

Lemma sameDocument_trans (a b c : Page) :
  sameDocument a b -> sameDocument b c -> sameDocument a c.
Proof. unfold sameDocument. intros [] []. split; congruence. Qed.

Lemma showPanel_document (script : Script) (st : Page) :
  sameDocument st (showPanel script st).
Proof.
  unfold showPanel. destruct (hidePanel_document script st) as [[Hf He] _].
  unfold sameDocument. simpl. auto.
Qed.

(** An event other than a click on Replace leaves the document alone. *)
Lemma dispatch_document (script : Script) (e : Event) (m : Manager) :
  isReplace e = false ->
  sameDocument (page m)
    (page (dispatch script kindOf toLowerCase textContent engineMessage e m)).
Proof.
  intros He. destruct e; try discriminate; simpl.
  - unfold handleClick. destruct (panel (page m)); [destruct insidePanel|];
      try (split; reflexivity). apply hidePanel_document.
  - unfold handleKeydown. destruct isEscape; [apply hidePanel_document|].
    split; reflexivity.
  - unfold handleTextImprovementRequest.
    eapply sameDocument_trans; [|apply improveTextStart_document].
    eapply sameDocument_trans; [apply setCurrent_document | apply showPanel_document].
  - unfold handleTextImprovementRequestForEditor.
    eapply sameDocument_trans; [|apply improveTextAndHTMLStart_document].
    eapply sameDocument_trans; [apply setCurrent_document | apply showPanel_document].
  - apply hidePanel_document.
  - destruct (copySuggestion textContent (page m)); split; reflexivity.
  - apply improveTextStart_document.
  - destruct (nth_error (waiting m) call) as [c|]; [|split; reflexivity].
    simpl. destruct c; simpl.
    + apply improveTextResume_document.
    + apply improveTextAndHTMLResume_document.
Qed.

(** X6.  Only the Replace button edits the page: along every sequence of
    events without a click on Replace (requests, replies that arrive,
    retries, copies, clicks and keys), in both scripts, the fields keep
    their values and offsets and no element receives an event. *)
Theorem only_replace_edits_the_page (script : Script) (events : list Event)
    (m : Manager) :
  forallb (fun e => negb (isReplace e)) events = true ->
  fields (page (run script kindOf toLowerCase textContent engineMessage events m)) =
    fields (page m) /\
  effects (page (run script kindOf toLowerCase textContent engineMessage events m)) =
    effects (page m).
Proof.
  unfold run. revert m.
  induction events as [|e events IH]; intros m H; simpl in *; [auto|].
  apply andb_true_iff in H. destruct H as [He H].
  apply negb_true_iff in He.
  destruct (IH (dispatch script kindOf toLowerCase textContent engineMessage e m) H)
    as [Hf Hx].
  destruct (dispatch_document script e m He) as [Hf' Hx'].
  split; congruence.
Qed.

End EventFacts.

Lemma only_replace_witness :
  fields (EventLoop.page
            (EventLoop.run Reworked inputs asciiLower plainTextOf noMessage
               [EventLoop.TextImprovementRequested (u "helo wrld") 0;
                EventLoop.Replied 0 (Responded (success (u "Hello world") (u "Fixed spelling")));
                EventLoop.CopyClicked; EventLoop.Keydown true]
               (EventLoop.start (fun _ => field0)))) 0%nat = field0 /\
  EventLoop.clipboard
    (EventLoop.run Reworked inputs asciiLower plainTextOf noMessage
       [EventLoop.TextImprovementRequested (u "helo wrld") 0;
        EventLoop.Replied 0 (Responded (success (u "Hello world") (u "Fixed spelling")));
        EventLoop.CopyClicked; EventLoop.Keydown true]
       (EventLoop.start (fun _ => field0))) = [u "Hello world"].
Proof.
  split; [|reflexivity].
  destruct (@only_replace_edits_the_page inputs asciiLower plainTextOf noMessage Reworked
              [EventLoop.TextImprovementRequested (u "helo wrld") 0;
               EventLoop.Replied 0 (Responded (success (u "Hello world") (u "Fixed spelling")));
               EventLoop.CopyClicked; EventLoop.Keydown true]
              (EventLoop.start (fun _ => field0)) eq_refl) as [H _].
  rewrite H. reflexivity.
Defined.

(** ** One request in flight in [content.ts] *)

Section SingleFlight.
Import EventLoop.

Variable kindOf : nat -> FieldKind.
Variable toLowerCase : ustring -> ustring.
Variable textContent : ustring -> ustring.
Variable engineMessage : Js.engineFault -> ustring.

Lemma improveTextStart_processing (text : ustring) (st : Page) :
  (snd (improveTextStart text st) = true ->
   isProcessing st = false /\ isProcessing (fst (improveTextStart text st)) = true) /\
  (snd (improveTextStart text st) = false ->
   isProcessing (fst (improveTextStart text st)) = isProcessing st /\
   sent (fst (improveTextStart text st)) = sent st).
Proof.
  unfold improveTextStart, showLoadingState. simpl.
  destruct (isProcessing st) eqn:P; simpl.
  - split; [discriminate | auto].
  - destruct (panel st) eqn:E; simpl.
    + split; [auto | discriminate].
    + split; [discriminate | auto].
Qed.

Lemma improveTextAndHTMLStart_processing (text : ustring) (inputElement : nat)
    (isProseMirror : bool) (st : Page) :
  let r := improveTextAndHTMLStart ContentTs text inputElement isProseMirror st in
  (snd r = true -> isProcessing st = false /\ isProcessing (fst r) = true) /\
  (snd r = false ->
   (isProcessing st = true -> isProcessing (fst r) = true) /\
   sent (fst r) = sent st).
Proof.
  cbv zeta. unfold improveTextAndHTMLStart, showLoadingState.
  destruct (isProcessing st) eqn:P; simpl.
  - split; [discriminate | auto].
  - destruct (panel st) eqn:E; simpl.
    + destruct isProseMirror; simpl; split; try discriminate; auto.
    + split; [discriminate|]. intros _. split; [congruence | reflexivity].
Qed.

Lemma hidePanel_ts_processing (st : Page) :
  isProcessing (hidePanel ContentTs st) = isProcessing st.
Proof. unfold hidePanel. destruct (panel st); reflexivity. Qed.

Lemma showPanel_ts_processing (st : Page) :
  isProcessing (showPanel ContentTs st) = isProcessing st.
Proof. unfold showPanel. simpl. apply hidePanel_ts_processing. Qed.

Lemma replaceSelection_ts (st : Page) :
  isProcessing (replaceSelection ContentTs kindOf textContent st) = isProcessing st /\
  sent (replaceSelection ContentTs kindOf textContent st) = sent st.
Proof.
  unfold replaceSelection, replaceInField.
  destruct (proseMirrorEditor st) as [editor|];
    [destruct (truthy (changingProseMirror st));
       [destruct (changingProseMirror st) as [[| | | | |]|]|]|];
    try (split; reflexivity);
    try (rewrite hidePanel_ts_processing;
         destruct (hidePanel_document ContentTs
                     (effect editor (ChildrenReplaced s) st)) as [_ ->];
         split; reflexivity);
    destruct (suggestionText textContent st); try (split; reflexivity);
    destruct (currentInputElement st); try (split; reflexivity);
    rewrite hidePanel_ts_processing;
    match goal with
    | |- _ /\ sent (hidePanel ContentTs ?x) = _ =>
        destruct (hidePanel_document ContentTs x) as [_ ->]
    end; split; reflexivity.
Qed.

Lemma resume_ts (call : Call) (reply : SendReply) (st : Page) :
  sent (resume ContentTs toLowerCase engineMessage call reply st) = sent st /\
  (isEditorCall call = true ->
   isProcessing (resume ContentTs toLowerCase engineMessage call reply st) =
   isProcessing st).
Proof.
  destruct call; simpl.
  - destruct (improveTextResume_document toLowerCase engineMessage ContentTs reply st)
      as [_ [Hs _]].
    split; [exact Hs | discriminate].
  - destruct (improveTextAndHTMLResume_document toLowerCase ContentTs reply st)
      as [_ [Hs [_ Hp]]].
    split; [exact Hs | intros _; exact Hp].
Qed.

Lemma called_singleFlight (call : Call) (r : Page * bool) (m : Manager) :
  singleFlight m ->
  (snd r = true -> isProcessing (page m) = false /\ isProcessing (fst r) = true) ->
  (snd r = false -> isProcessing (page m) = true -> isProcessing (fst r) = true) ->
  singleFlight (called call r m).
Proof.
  unfold singleFlight, called. intros Hm Ht Hf. simpl.
  destruct (snd r) eqn:S.
  - destruct (Ht eq_refl) as [H0 H1].
    destruct (waiting m) as [|c [|c' w]]; simpl; [exact H1 | congruence | exact Hm].
  - destruct (waiting m) as [|c [|c' w]]; simpl; auto.
Qed.

Lemma withPage_singleFlight (st : Page) (m : Manager) :
  singleFlight m ->
  (isProcessing (page m) = true -> isProcessing st = true) ->
  singleFlight (withPage st m).
Proof.
  unfold singleFlight, withPage. cbn [waiting page].
  destruct (waiting m) as [|c [|c' w]]; auto.
Qed.

Lemma dispatch_singleFlight (e : Event) (m : Manager) :
  singleFlight m ->
  singleFlight (dispatch ContentTs kindOf toLowerCase textContent engineMessage e m).
Proof.
  intros Hm. destruct e; cbn [dispatch].
  - apply withPage_singleFlight; [exact Hm|]. intros P. unfold handleClick.
    destruct (panel (page m)); [destruct insidePanel|]; try exact P.
    now rewrite hidePanel_ts_processing.
  - apply withPage_singleFlight; [exact Hm|]. intros P. unfold handleKeydown.
    destruct isEscape; try exact P. now rewrite hidePanel_ts_processing.
  - unfold handleTextImprovementRequest.
    destruct (improveTextStart_processing text
                (showPanel ContentTs (setCurrent text inputElement (page m))))
      as [Ht Hf].
    rewrite showPanel_ts_processing in Ht, Hf. cbn [setCurrent isProcessing] in Ht, Hf.
    apply called_singleFlight; [exact Hm | exact Ht |].
    intros S P. destruct (Hf S) as [-> _]. exact P.
  - unfold handleTextImprovementRequestForEditor.
    pose proof (improveTextAndHTMLStart_processing text inputElement isProseMirror
                  (showPanel ContentTs (setCurrent text inputElement (page m))))
      as H.
    cbv zeta in H. rewrite showPanel_ts_processing in H.
    cbn [setCurrent isProcessing] in H.
    destruct H as [Ht Hf].
    apply called_singleFlight; [exact Hm | exact Ht |].
    intros S P. destruct (Hf S) as [H _]. exact (H P).
  - apply withPage_singleFlight; [exact Hm|]. intros P.
    now rewrite hidePanel_ts_processing.
  - apply withPage_singleFlight; [exact Hm|]. intros P.
    destruct (replaceSelection_ts (page m)) as [-> _]. exact P.
  - destruct (copySuggestion textContent (page m)); exact Hm.
  - unfold retryClick.
    destruct (improveTextStart_processing (currentInputText (page m)) (page m))
      as [Ht Hf].
    apply called_singleFlight; [exact Hm | exact Ht |].
    intros S P. destruct (Hf S) as [-> _]. exact P.
  - unfold singleFlight in *.
    destruct (waiting m) as [|c [|c' w]] eqn:W.
    + destruct call; cbn [nth_error]; unfold singleFlight; rewrite W; exact I.
    + destruct call as [|[|n]]; cbn [nth_error removeNth waiting];
        [exact I | rewrite W; exact Hm..].
    + destruct Hm.
Qed.

Lemma run_singleFlight (events : list Event) (m : Manager) :
  singleFlight m -> singleFlight (run ContentTs kindOf toLowerCase textContent engineMessage events m).
Proof.
  unfold run. revert m.
  induction events as [|e events IH]; intros m Hm; simpl; [exact Hm|].
  apply IH, dispatch_singleFlight, Hm.
Qed.

(** While [content.ts] is processing, no event sends a message, and only
    the reply to [improveText] ends the processing. *)
Lemma dispatch_ts_while_processing (e : Event) (m : Manager) :
  isProcessing (page m) = true ->
  sent (page (dispatch ContentTs kindOf toLowerCase textContent engineMessage e m)) =
    sent (page m) /\
  (forallb isEditorCall (waiting m) = true ->
   isProcessing (page (dispatch ContentTs kindOf toLowerCase textContent engineMessage e m))
     = true /\
   forallb isEditorCall
     (waiting (dispatch ContentTs kindOf toLowerCase textContent engineMessage e m)) = true).
Proof.
  intros P.
  assert (Hhide : sent (hidePanel ContentTs (page m)) = sent (page m) /\
                  isProcessing (hidePanel ContentTs (page m)) = true).
  { destruct (hidePanel_document ContentTs (page m)) as [_ ->].
    rewrite hidePanel_ts_processing. auto. }
  destruct Hhide as [Hhs Hhp].
  destruct e; cbn [dispatch withPage called page waiting].
  - unfold handleClick.
    destruct (panel (page m)); [destruct insidePanel|]; auto.
  - unfold handleKeydown. destruct isEscape; auto.
  - unfold handleTextImprovementRequest.
    destruct (improveTextStart_processing text
                (showPanel ContentTs (setCurrent text inputElement (page m))))
      as [Ht Hf].
    rewrite showPanel_ts_processing in Ht, Hf. cbn [setCurrent isProcessing] in Ht, Hf.
    destruct (snd (improveTextStart text _)) eqn:S.
    + destruct (Ht eq_refl). congruence.
    + destruct (Hf eq_refl) as [Hp Hs]. rewrite Hs, Hp. unfold showPanel.
      cbn [setPanel sent].
      destruct (hidePanel_document ContentTs
                  (setCurrent text inputElement (page m))) as [_ ->].
      cbn [setCurrent sent]. auto.
  - unfold handleTextImprovementRequestForEditor.
    pose proof (improveTextAndHTMLStart_processing text inputElement isProseMirror
                  (showPanel ContentTs (setCurrent text inputElement (page m))))
      as H.
    cbv zeta in H. rewrite showPanel_ts_processing in H.
    cbn [setCurrent isProcessing] in H.
    destruct H as [Ht Hf].
    destruct (snd (improveTextAndHTMLStart ContentTs text inputElement
                     isProseMirror _)) eqn:S.
    + destruct (Ht eq_refl). congruence.
    + destruct (Hf eq_refl) as [Hp Hs]. rewrite Hs, (Hp P). unfold showPanel.
      cbn [setPanel sent].
      destruct (hidePanel_document ContentTs
                  (setCurrent text inputElement (page m))) as [_ ->].
      cbn [setCurrent sent]. auto.
  - auto.
  - destruct (replaceSelection_ts (page m)) as [-> ->]. auto.
  - destruct (copySuggestion textContent (page m)); cbn [page waiting]; auto.
  - unfold retryClick.
    destruct (improveTextStart_processing (currentInputText (page m)) (page m))
      as [Ht Hf].
    destruct (snd (improveTextStart (currentInputText (page m)) (page m))) eqn:S.
    + destruct (Ht eq_refl). congruence.
    + destruct (Hf eq_refl) as [Hp Hs]. rewrite Hs, Hp. auto.
  - destruct (nth_error (waiting m) call) as [c|] eqn:N; cbn [page waiting]; [|auto].
    destruct (resume_ts c reply (page m)) as [Hs Hp].
    split; [exact Hs|]. intros W.
    assert (Hc : isEditorCall c = true).
    { apply nth_error_In in N. rewrite forallb_forall in W. now apply W. }
    rewrite (Hp Hc). split; [exact P|].
    clear - W. revert call.
    induction (waiting m) as [|x w IH]; intros [|n]; simpl in *;
      auto; apply andb_true_iff in W; destruct W as [Wx Ww]; auto.
    rewrite Wx. simpl. now apply IH.
Qed.

(** X7.  [content.ts] keeps one request in flight: after every sequence
    of events from the start of the manager at most one call waits for a
    reply; while one waits the manager is processing, and no event sends
    a second message then. *)
Theorem content_ts_keeps_one_request_in_flight (fields0 : nat -> InputElement)
    (events : list Event) (e : Event) :
  let m := run ContentTs kindOf toLowerCase textContent engineMessage events (start fields0) in
  (List.length (waiting m) <= 1)%nat /\
  (waiting m = [] \/ isProcessing (page m) = true) /\
  (waiting m = [] \/ sent (page (dispatch ContentTs kindOf toLowerCase textContent engineMessage e m)) = sent (page m)).
Proof.
  cbv zeta.
  assert (H : singleFlight (run ContentTs kindOf toLowerCase textContent engineMessage events (start fields0)))
    by (apply run_singleFlight; exact I).
  unfold singleFlight in H.
  destruct (waiting (run ContentTs kindOf toLowerCase textContent engineMessage events (start fields0))) as [|c [|c' w]] eqn:W.
  - simpl. auto.
  - simpl. split; [lia|]. split; [now right|]. right.
    apply dispatch_ts_while_processing, H.
  - destruct H.
Qed.

(** X8.  In [content.ts] a request for a rich-text editor blocks the
    manager for good: [improveTextAndHTML] sets [isProcessing] and
    nothing clears it, so whatever events follow (replies, requests for
    fields or editors, retries, clicks), no further message is sent and
    the manager stays in the processing state. *)
Theorem content_ts_editor_request_blocks_the_manager (m0 : Manager)
    (text : ustring) (inputElement : nat) (isProseMirror : bool)
    (events : list Event) :
  isProcessing (page m0) = false ->
  waiting m0 = [] ->
  let m := dispatch ContentTs kindOf toLowerCase textContent engineMessage
             (TextImprovementRequestedForEditor text inputElement isProseMirror) m0 in
  isProcessing (page m) = true /\
  sent (page m) = sent (page m0)
                  ++ (if isProseMirror then [MakeEditedElementMessage text] else []) /\
  sent (page (run ContentTs kindOf toLowerCase textContent engineMessage events m)) = sent (page m) /\
  isProcessing (page (run ContentTs kindOf toLowerCase textContent engineMessage events m)) = true.
Proof.
  intros P0 W0. cbv zeta.
  set (m := dispatch ContentTs kindOf toLowerCase textContent engineMessage
              (TextImprovementRequestedForEditor text inputElement isProseMirror) m0).
  assert (Hm : isProcessing (page m) = true /\
               forallb isEditorCall (waiting m) = true /\
               sent (page m) = sent (page m0)
                 ++ (if isProseMirror then [MakeEditedElementMessage text] else [])).
  { unfold m. cbn [dispatch called page waiting].
    unfold handleTextImprovementRequestForEditor, improveTextAndHTMLStart.
    rewrite showPanel_ts_processing. cbn [setCurrent isProcessing]. rewrite P0.
    unfold showPanel at 1. cbn [setPanel panel orb].
    unfold showLoadingState, showPanel. cbn [setProcessing setPanel panel].
    destruct (hidePanel_document ContentTs
                (setCurrent text inputElement (page m0))) as [_ Hs].
    destruct isProseMirror;
      cbn [fst snd sent send isProcessing setEditor setPanel setProcessing];
      rewrite W0, Hs; cbn [setCurrent sent app forallb isEditorCall andb];
      [auto | rewrite app_nil_r; auto]. }
  destruct Hm as [Pm [Wm Sm]].
  split; [exact Pm|]. split; [exact Sm|].
  clear Sm. revert Pm Wm. generalize m. clear m.
  unfold run. induction events as [|e events IH]; intros m Pm Wm; simpl; [auto|].
  destruct (dispatch_ts_while_processing e m Pm) as [Hs Hk].
  destruct (Hk Wm) as [Pm' Wm'].
  destruct (IH _ Pm' Wm') as [Hs' Hp']. split; [congruence | exact Hp'].
Qed.

End SingleFlight.

Lemma content_ts_editor_request_witness :
  sent (EventLoop.page
          (EventLoop.run ContentTs inputs asciiLower plainTextOf noMessage
             [EventLoop.Replied 0 (SendRejected (Js.ErrorObject (u "Failed to fetch")));
              EventLoop.CloseClicked;
              EventLoop.TextImprovementRequested (u "helo wrld") 0;
              EventLoop.RetryClicked]
             (EventLoop.dispatch ContentTs inputs asciiLower plainTextOf noMessage
                (EventLoop.TextImprovementRequestedForEditor (u "teh cat") 1 true)
                (EventLoop.start (fun _ => field0)))))
  = [MakeEditedElementMessage (u "teh cat")].
Proof.
  destruct (@content_ts_editor_request_blocks_the_manager inputs asciiLower plainTextOf noMessage
              (EventLoop.start (fun _ => field0)) (u "teh cat") 1 true
              [EventLoop.Replied 0 (SendRejected (Js.ErrorObject (u "Failed to fetch")));
               EventLoop.CloseClicked;
               EventLoop.TextImprovementRequested (u "helo wrld") 0;
               EventLoop.RetryClicked]
              eq_refl eq_refl) as [_ [H1 [H2 _]]].
  rewrite H2, H1. reflexivity.
Defined.

